(** * SmartMeter-Vision: the reading store, the settings store and the
      approval calculator

    A shallow embedding of [services/readings.ts] and [services/settings.ts]
    together with the display helper [calculateGrandTotal] of
    [components/ReadingCard.tsx].

    Modelling choices.
    - A Firestore collection is a finite map from document ids to documents
      ([gmap string _]); a query returns its matching documents as a list of
      (id, data) pairs.  Nothing below depends on the order of that list.
    - The service functions are [async]; each one is modelled as a
      computation in a small state-and-exception monad over the database,
      one awaited SDK call per monadic step.  Interleavings of two running
      service calls are not modelled.
    - JavaScript numbers that carry meter values and money are modelled as
      exact rationals ([Qc]); IEEE-754 rounding is not modelled.  Timestamps
      ([Date.now()]) are integers ([Z]).
    - [null] and [undefined] both read as [None]: the code only ever tests
      them with [??], [||] and truthiness, which do not tell them apart.
    - [Date.now()] and the id that [addDoc] generates are arguments of the
      operations that use them. *)

From Stdlib Require Import QArith Qcanon ZArith PrimFloat Lqa OrdersEx.
From stdpp Require Import base numbers option list gmap strings pretty fin_maps sorting.

Local Open Scope Qc_scope.

(** ** Data model ([types/models.ts], as documented in KT_DOCUMENTATION.md) *)

Inductive Status : Set := pending | approved | rejected.

Global Instance Status_eq_dec : EqDecision Status.
Proof. solve_decision. Defined.

Record Reading : Type := mkReading {
  flatId : string;
  imageUrl : string;
  ocrReading : option Qc;
  ocrConfidence : option Qc;
  tenantReading : option Qc;
  correctedReading : option Qc;
  previousReading : option Qc;
  unitsUsed : option Qc;
  amount : option Qc;
  status : option Status;
  createdAt : option Z;
  approvedAt : option Z;
  yearMonth : option string;
  tariffAtApproval : option Qc;
  unitFactorAtApproval : option Qc;
  rejectionReason : option string;
  reopenReason : option string
}.

Record Flat : Type := mkFlat {
  flat_flatId : string;
  tenantName : option string;
  flat_tariffPerUnit : Qc;
  userId : string;
  initialReading : option Qc
}.

(** A field of the settings document as the SDK hands it over: the getters
    test it with [typeof ... === 'number']. *)
Inductive JsVal : Type :=
  | JNum (n : Qc)
  | JStr (s : string)
  | JBool (b : bool)
  | JNull.

(** The database: the [readings] and [flats] collections and the single
    document [settings/globalTariff] ([None] when it does not exist). *)
Record Db : Type := mkDb {
  readings : gmap string Reading;
  flats : gmap string Flat;
  globalTariffDoc : option (gmap string JsVal)
}.

Definition emptyDb : Db := mkDb ∅ ∅ None.

(** ** JavaScript operators used by the services *)

(** [a ?? b] with a total right-hand side. *)
Definition nullish {A} (a : option A) (b : A) : A :=
  match a with Some v => v | None => b end.

(** [a ?? b] when the right-hand side may itself be [null]. *)
Definition nullishOpt {A} (a b : option A) : option A :=
  match a with Some v => Some v | None => b end.

(** [a || b] on numbers: [0], [null] and [undefined] are falsy. *)
Definition orElse (a : option Z) (b : Z) : Z :=
  match a with
  | Some t => if bool_decide (t = 0%Z) then b else t
  | None => b
  end.

(** Truthiness of an optional timestamp ([x ? ... : ...]). *)
Definition truthy (a : option Z) : option Z :=
  match a with
  | Some t => if bool_decide (t = 0%Z) then None else Some t
  | None => None
  end.

(** [list.sort((a, b) => key(b) - key(a))]: descending by [key]; the sort of
    the language is stable, so elements with equal keys keep their order. *)
Fixpoint insertDesc {A} (key : A → Z) (x : A) (l : list A) : list A :=
  match l with
  | [] => [x]
  | y :: ys =>
      if bool_decide (key y ≤ key x)%Z then x :: y :: ys
      else y :: insertDesc key x ys
  end.

Fixpoint sortDesc {A} (key : A → Z) (l : list A) : list A :=
  match l with
  | [] => []
  | x :: xs => insertDesc key x (sortDesc key xs)
  end.

(** [s.padStart(n, c)] for a one-character filler. *)
Definition padStart (n : nat) (c : string) (s : string) : string :=
  String.concat "" (replicate (n - String.length s) c) +:+ s.

(** ** The monad of service calls *)

Inductive Error : Type :=
  | JsError (message : string)   (* [throw new Error(message)] *)
  | FirestoreNotFound.           (* [updateDoc] on a missing document *)

Global Instance Error_eq_dec : EqDecision Error.
Proof. solve_decision. Defined.

(** A computation reads and writes the database and either throws ([inl])
    or returns ([inr]). *)
Definition Firestore (A : Type) : Type := Db → Db * (Error + A).

Global Instance Firestore_ret : MRet Firestore := λ A a db, (db, inr a).

Global Instance Firestore_bind : MBind Firestore := λ A B f m db,
  match m db with
  | (db', inl e) => (db', inl e)
  | (db', inr a) => f a db'
  end.

Definition throw {A} (e : Error) : Firestore A := λ db, (db, inl e).

(** [getDoc(doc(db, 'readings', id))]: [snap.exists()] is [is_Some]. *)
Definition getReadingDoc (id : string) : Firestore (option Reading) :=
  λ db, (db, inr (readings db !! id)).

(** [getDocs(query(collection(db, 'readings'), where ...))] followed by
    [.docs.map(d => ({ id: d.id, ...d.data() }))]. *)
Definition getReadingDocs (P : Reading → Prop) `{∀ r, Decision (P r)}
  : Firestore (list (string * Reading)) :=
  λ db, (db, inr (filter (λ d, P d.2) (map_to_list (readings db)))).

(** [updateDoc(ref, fields)]: overwrites the listed fields of an existing
    document and fails on a missing one. *)
Definition updateDoc (id : string) (fields : Reading → Reading) : Firestore unit :=
  λ db,
    match readings db !! id with
    | Some r => (mkDb (<[id := fields r]> (readings db)) (flats db) (globalTariffDoc db), inr ())
    | None => (db, inl FirestoreNotFound)
    end.

(** [addDoc(readingsRef, data)], [newId] being the id the SDK generates. *)
Definition addDoc (newId : string) (data : Reading) : Firestore unit :=
  λ db, (mkDb (<[newId := data]> (readings db)) (flats db) (globalTariffDoc db), inr ()).

(** [getDoc(doc(db, 'settings', 'globalTariff'))]. *)
Definition getSettingsDoc : Firestore (option (gmap string JsVal)) :=
  λ db, (db, inr (globalTariffDoc db)).

(** [setDoc(ref, { field: value }, { merge: true })]: creates the document
    when it is missing, otherwise overwrites that one field. *)
Definition setSettingsMerge (field : string) (v : JsVal) : Firestore unit :=
  λ db, (mkDb (readings db) (flats db)
              (Some (<[field := v]> (nullish (globalTariffDoc db) ∅))), inr ()).

(** Modelled from the spec: [getFlatByFlatId] of [services/flats.ts], which
    is not among the sources.  It yields the flat whose [flatId] field is the
    given one, or [null]; the approval only reads its "configured initial
    reading". *)
Definition getFlatByFlatId (fid : string) : Firestore (option Flat) :=
  λ db, (db, inr (snd <$> head (filter (λ d, flat_flatId d.2 = fid) (map_to_list (flats db))))).

(** ** services/settings.ts *)

Definition getGlobalTariff : Firestore Qc :=
  snap ← getSettingsDoc;
  match snap with
  | None => mret (Q2Qc 0)
  | Some data =>
      mret (match data !! "tariffPerUnit" with Some (JNum n) => n | _ => Q2Qc 0 end)
  end.

Definition getMinimumPrice : Firestore Qc :=
  snap ← getSettingsDoc;
  match snap with
  | None => mret (Q2Qc 250)
  | Some data =>
      mret (match data !! "minimumPrice" with Some (JNum n) => n | _ => Q2Qc 250 end)
  end.

Definition getUnitFactor : Firestore Qc :=
  snap ← getSettingsDoc;
  match snap with
  | None => mret (Q2Qc (23 # 10))
  | Some data =>
      mret (match data !! "unitFactor" with Some (JNum n) => n | _ => Q2Qc (23 # 10) end)
  end.

Definition updateGlobalTariff (tariffPerUnit : Qc) : Firestore unit :=
  setSettingsMerge "tariffPerUnit" (JNum tariffPerUnit).

Definition updateMinimumPrice (minimumPrice : Qc) : Firestore unit :=
  setSettingsMerge "minimumPrice" (JNum minimumPrice).

Definition updateUnitFactor (unitFactor : Qc) : Firestore unit :=
  setSettingsMerge "unitFactor" (JNum unitFactor).

(** ** services/readings.ts *)

(** The two sort keys of the file: [(r.createdAt || 0)] and
    [(r.approvedAt || r.createdAt || 0)]. *)
Definition createdKey (d : string * Reading) : Z :=
  orElse (createdAt d.2) 0.

Definition approvedKey (d : string * Reading) : Z :=
  orElse (approvedAt d.2) (orElse (createdAt d.2) 0).

Definition approveReading (now : Z) (readingId : string) (corrected : Qc)
  : Firestore unit :=
  snap ← getReadingDoc readingId;
  match snap with
  | None => throw (JsError "Reading not found")
  | Some reading =>
      tariffPerUnit ← getGlobalTariff;
      minimumPrice ← getMinimumPrice;
      unitFactor ← getUnitFactor;
      prevSnap ← getReadingDocs
        (λ r, flatId r = flatId reading ∧ status r = Some approved);
      let prevList := filter (λ r, r.1 ≠ readingId) prevSnap in
      let prev := head (sortDesc approvedKey prevList) in
      let previousReading :=
        match prev with
        | Some p => nullishOpt (correctedReading p.2) (ocrReading p.2)
        | None => None
        end in
      previousReading ←
        match previousReading with
        | None =>
            flat ← getFlatByFlatId (flatId reading);
            mret (flat ≫= initialReading)
        | Some v => mret (Some v)
        end;
      let finalPreviousReading := nullish previousReading (Q2Qc 0) in
      let rawUnits := corrected - finalPreviousReading in
      let unitsUsed := if bool_decide (Q2Qc 0 < rawUnits) then rawUnits else Q2Qc 0 in
      let totalKg := unitsUsed * unitFactor in
      let energyAmount := totalKg * tariffPerUnit in
      let amount := energyAmount + minimumPrice in
      let approvedAt := now in
      updateDoc readingId (λ r,
        {| flatId := flatId r;
           imageUrl := imageUrl r;
           ocrReading := ocrReading r;
           ocrConfidence := ocrConfidence r;
           tenantReading := tenantReading r;
           correctedReading := Some corrected;
           previousReading := Some finalPreviousReading;
           unitsUsed := Some unitsUsed;
           amount := Some amount;
           status := Some approved;
           createdAt := createdAt r;
           approvedAt := Some approvedAt;
           yearMonth := yearMonth r;
           tariffAtApproval := Some tariffPerUnit;
           unitFactorAtApproval := Some unitFactor;
           rejectionReason := rejectionReason r;
           reopenReason := reopenReason r |})
  end.

Definition rejectReading (readingId : string) (reason : option string)
  : Firestore unit :=
  updateDoc readingId (λ r,
    {| flatId := flatId r;
       imageUrl := imageUrl r;
       ocrReading := ocrReading r;
       ocrConfidence := ocrConfidence r;
       tenantReading := tenantReading r;
       correctedReading := correctedReading r;
       previousReading := previousReading r;
       unitsUsed := unitsUsed r;
       amount := amount r;
       status := Some rejected;
       createdAt := createdAt r;
       approvedAt := approvedAt r;
       yearMonth := yearMonth r;
       tariffAtApproval := tariffAtApproval r;
       unitFactorAtApproval := unitFactorAtApproval r;
       rejectionReason := nullishOpt reason None;
       reopenReason := reopenReason r |}).

Definition reopenReading (readingId : string) (reason : option string)
  : Firestore unit :=
  updateDoc readingId (λ r,
    {| flatId := flatId r;
       imageUrl := imageUrl r;
       ocrReading := ocrReading r;
       ocrConfidence := ocrConfidence r;
       tenantReading := tenantReading r;
       correctedReading := correctedReading r;
       previousReading := previousReading r;
       unitsUsed := None;
       amount := None;
       status := Some pending;
       createdAt := createdAt r;
       approvedAt := None;
       yearMonth := yearMonth r;
       tariffAtApproval := None;
       unitFactorAtApproval := unitFactorAtApproval r;
       rejectionReason := None;
       reopenReason := nullishOpt reason None |}).

(** The message of the upload-limit error, [dateStr ? `...` : '...']; an
    empty string is falsy. *)
Definition uploadLimitMessage (dateStr : option string) : string :=
  match dateStr with
  | Some s =>
      if bool_decide (s = "") then
        "Upload limit reached for this calendar month (pending/approved reading exists)."
      else
        "Upload limit reached. You already have a pending/approved upload on "
          +:+ s +:+ ". Try again next month."
  | None =>
      "Upload limit reached for this calendar month (pending/approved reading exists)."
  end.

(** The calendar and the date formatting of the host ([Date] in local time)
    are parameters of the upload path. *)
Section Host.
Variable getFullYear : Z → Z.
Variable getMonth : Z → Z.
Variable toLocaleDateString : Z → string.

Definition getYearMonth (timestamp : Z) : string :=
  let year := getFullYear timestamp in
  let month := padStart 2 "0" (pretty (getMonth timestamp + 1)%Z) in
  pretty year +:+ "-" +:+ month.

(** [r.yearMonth ?? getYearMonth(r.createdAt || 0)]. *)
Definition bucket (r : Reading) : string :=
  nullish (yearMonth r) (getYearMonth (orElse (createdAt r) 0)).

Definition createReadingFromImage (now : Z) (newId : string)
    (fid : string) (imageUrl : string) (tenantReading : option Qc)
  : Firestore unit :=
  let yearMonth := getYearMonth now in
  existingSnap ← getReadingDocs (λ r, flatId r = fid);
  let uploadsThisMonth :=
    filter (λ r, nullish (status r.2) pending ≠ rejected)
      (filter (λ r, bucket r.2 = yearMonth) existingSnap) in
  if bool_decide (0 < length uploadsThisMonth)%nat then
    let latest := head (sortDesc createdKey uploadsThisMonth) in
    let dateStr := toLocaleDateString <$> (latest ≫= λ l, truthy (createdAt l.2)) in
    throw (JsError (uploadLimitMessage dateStr))
  else
    addDoc newId
      {| flatId := fid;
         imageUrl := imageUrl;
         ocrReading := None;
         ocrConfidence := None;
         tenantReading := nullishOpt tenantReading None;
         correctedReading := None;
         previousReading := None;
         unitsUsed := None;
         amount := None;
         status := Some pending;
         createdAt := Some now;
         approvedAt := None;
         yearMonth := Some yearMonth;
         tariffAtApproval := None;
         unitFactorAtApproval := None;
         rejectionReason := None;
         reopenReason := None |}.
End Host.

(** ** components/ReadingCard.tsx *)

Module ReadingCard.

(** [Math.max(a, b)]. *)
Definition Math_max (a b : Qc) : Qc := if bool_decide (a ≤ b) then b else a.

Definition calculateGrandTotal (reading : Reading) : Qc :=
  if bool_decide (status reading ≠ Some approved) then
    nullish (amount reading) (Q2Qc 0)
  else
    let prev := nullish (previousReading reading) (Q2Qc 0) in
    let current :=
      nullish (nullishOpt (correctedReading reading) (ocrReading reading)) (Q2Qc 0) in
    let units := nullish (unitsUsed reading) (Math_max (Q2Qc 0) (current - prev)) in
    let tariffPerKg := nullish (tariffAtApproval reading) (Q2Qc 70) in
    let unitFactor := nullish (unitFactorAtApproval reading) (Q2Qc (23 # 10)) in
    let minimumCharge := Q2Qc 25 in
    let kgConsumed := units in
    let totalKg := kgConsumed * unitFactor in
    let energyAmount := totalKg * tariffPerKg in
    energyAmount + minimumCharge.

End ReadingCard.

(** ** A concrete host: UTC calendar, en-US dates

    Used to run the upload path on concrete inputs. *)

Module UtcHost.

Definition msPerDay : Z := 86400000.

(** Year, month (1..12) and day of the proleptic Gregorian date of an
    instant given in milliseconds since the epoch. *)
Definition civil (t : Z) : Z * Z * Z :=
  let z := (t `div` msPerDay + 719468)%Z in
  let era := (z `div` 146097)%Z in
  let doe := (z - era * 146097)%Z in
  let yoe := ((doe - doe `div` 1460 + doe `div` 36524 - doe `div` 146096) `div` 365)%Z in
  let y := (yoe + era * 400)%Z in
  let doy := (doe - (365 * yoe + yoe `div` 4 - yoe `div` 100))%Z in
  let mp := ((5 * doy + 2) `div` 153)%Z in
  let d := (doy - (153 * mp + 2) `div` 5 + 1)%Z in
  let m := (if bool_decide (mp < 10) then mp + 3 else mp - 9)%Z in
  ((if bool_decide (m ≤ 2) then y + 1 else y)%Z, m, d).

Definition getFullYear (t : Z) : Z := (civil t).1.1.
Definition getMonth (t : Z) : Z := ((civil t).1.2 - 1)%Z.
Definition toLocaleDateString (t : Z) : string :=
  pretty (civil t).1.2 +:+ "/" +:+ pretty (civil t).2 +:+ "/" +:+ pretty (civil t).1.1.

End UtcHost.


(** ** Reading the state

    The value a getter returns in a given state, taken from the getter
    itself. *)

Definition currentTariff (db : Db) : Qc :=
  match (getGlobalTariff db).2 with inr t => t | inl _ => Q2Qc 0 end.

Definition currentMinimumPrice (db : Db) : Qc :=
  match (getMinimumPrice db).2 with inr t => t | inl _ => Q2Qc 0 end.

Definition currentUnitFactor (db : Db) : Qc :=
  match (getUnitFactor db).2 with inr t => t | inl _ => Q2Qc 0 end.

(** [flat?.initialReading ?? null] for the flat of the given id. *)
Definition configuredInitialReading (db : Db) (fid : string) : option Qc :=
  match (getFlatByFlatId fid db).2 with
  | inr flat => flat ≫= initialReading
  | inl _ => None
  end.

(** The locals [prevList], [prev] and [finalPreviousReading] of
    [approveReading] as functions of the state it runs in. *)
Definition prevList (db : Db) (readingId fid : string) : list (string * Reading) :=
  filter (λ r, r.1 ≠ readingId)
    (filter (λ d, flatId d.2 = fid ∧ status d.2 = Some approved)
       (map_to_list (readings db))).

Definition prev (db : Db) (readingId fid : string) : option (string * Reading) :=
  head (sortDesc approvedKey (prevList db readingId fid)).

Definition finalPreviousReading (db : Db) (readingId fid : string) : Qc :=
  nullish
    (nullishOpt
       (prev db readingId fid ≫= λ p, nullishOpt (correctedReading p.2) (ocrReading p.2))
       (configuredInitialReading db fid))
    (Q2Qc 0).

(** [rawUnits > 0 ? rawUnits : 0]. *)
Definition clampedUnits (corrected previous : Qc) : Qc :=
  if bool_decide (Q2Qc 0 < corrected - previous) then corrected - previous else Q2Qc 0.

(** The document [approveReading] leaves behind for the reading [r]. *)
Definition approvedRecord (db : Db) (now : Z) (readingId : string)
    (corrected : Qc) (r : Reading) : Reading :=
  let previous := finalPreviousReading db readingId (flatId r) in
  let units := clampedUnits corrected previous in
  {| flatId := flatId r;
     imageUrl := imageUrl r;
     ocrReading := ocrReading r;
     ocrConfidence := ocrConfidence r;
     tenantReading := tenantReading r;
     correctedReading := Some corrected;
     previousReading := Some previous;
     unitsUsed := Some units;
     amount := Some (units * currentUnitFactor db * currentTariff db
                     + currentMinimumPrice db);
     status := Some approved;
     createdAt := createdAt r;
     approvedAt := Some now;
     yearMonth := yearMonth r;
     tariffAtApproval := Some (currentTariff db);
     unitFactorAtApproval := Some (currentUnitFactor db);
     rejectionReason := rejectionReason r;
     reopenReason := reopenReason r |}.

(** ** The vocabulary of the specification *)

(** [max(a, b)] of the specification. *)
Definition spec_max (a b : Qc) : Qc := if bool_decide (a ≤ b) then b else a.

(** "the approval timestamp, falling back to the creation timestamp when the
    approval timestamp is absent". *)
Definition spec_timestamp (r : Reading) : Z :=
  match approvedAt r with
  | Some t => t
  | None => nullish (createdAt r) 0%Z
  end.

(** "its corrected value (or legacy OCR value)". *)
Definition spec_value (r : Reading) : option Qc :=
  match correctedReading r with
  | Some v => Some v
  | None => ocrReading r
  end.

(** "an approved reading of the same flat, excluding the one being
    approved". *)
Definition priorApproved (db : Db) (readingId fid : string)
    (pid : string) (p : Reading) : Prop :=
  readings db !! pid = Some p ∧ flatId p = fid ∧
  status p = Some approved ∧ pid ≠ readingId.

(** "amount = unitsUsed * unitFactor * tariffPerUnit + minimumPrice". *)
Definition spec_amount (units unitFactor tariffPerUnit minimumPrice : Qc) : Qc :=
  units * unitFactor * tariffPerUnit + minimumPrice.

(** The status the upload check reads: [r.status ?? 'pending']. *)
Definition effectiveStatus (r : Reading) : Status := nullish (status r) pending.

Section HostSpec.
Variable getFullYear : Z → Z.
Variable getMonth : Z → Z.
Variable toLocaleDateString : Z → string.

(** "an existing reading of that flat that falls in the month [ym] and has
    status other than rejected". *)
Definition conflicting (db : Db) (fid ym : string)
    (id : string) (r : Reading) : Prop :=
  readings db !! id = Some r ∧ flatId r = fid ∧
  bucket getFullYear getMonth r = ym ∧ effectiveStatus r ≠ rejected.

(** The local [uploadsThisMonth] of [createReadingFromImage] as a function
    of the state, and the document the function adds. *)
Definition uploadsThisMonth (db : Db) (fid : string) (now : Z)
  : list (string * Reading) :=
  filter (λ r, nullish (status r.2) pending ≠ rejected)
    (filter (λ r, bucket getFullYear getMonth r.2 = getYearMonth getFullYear getMonth now)
       (filter (λ d, flatId d.2 = fid) (map_to_list (readings db)))).

Definition submittedRecord (now : Z) (fid img : string) (tenant : option Qc)
  : Reading :=
  {| flatId := fid;
     imageUrl := img;
     ocrReading := None;
     ocrConfidence := None;
     tenantReading := tenant;
     correctedReading := None;
     previousReading := None;
     unitsUsed := None;
     amount := None;
     status := Some pending;
     createdAt := Some now;
     approvedAt := None;
     yearMonth := Some (getYearMonth getFullYear getMonth now);
     tariffAtApproval := None;
     unitFactorAtApproval := None;
     rejectionReason := None;
     reopenReason := None |}.

(** "at most one non-rejected reading per (flat, year-month) pair". *)
Definition oneActivePerMonth (db : Db) : Prop :=
  ∀ fid ym id1 r1 id2 r2,
    conflicting db fid ym id1 r1 → conflicting db fid ym id2 r2 → id1 = id2.

(** The four operations on readings. *)
Inductive Op : Type :=
  | OpCreate (now : Z) (newId fid img : string) (tenant : option Qc)
  | OpApprove (now : Z) (readingId : string) (corrected : Qc)
  | OpReject (readingId : string) (reason : option string)
  | OpReopen (readingId : string) (reason : option string).

Definition runOp (op : Op) : Firestore unit :=
  match op with
  | OpCreate now newId fid img tenant =>
      createReadingFromImage getFullYear getMonth toLocaleDateString
        now newId fid img tenant
  | OpApprove now readingId corrected => approveReading now readingId corrected
  | OpReject readingId reason => rejectReading readingId reason
  | OpReopen readingId reason => reopenReading readingId reason
  end.

(** Running operations one after the other; an operation that throws
    leaves the state as it found it. *)
Definition runOps (ops : list Op) (db : Db) : Db :=
  foldl (λ d op, (runOp op d).1) db ops.

(** [guard] holds for every operation of [ops] in the state it runs in. *)
Fixpoint guardedRun (guard : Db → Op → Prop) (ops : list Op) (db : Db) : Prop :=
  match ops with
  | [] => True
  | op :: ops' => guard db op ∧ guardedRun guard ops' (runOp op db).1
  end.

(** The SDK generates an id that no document of the collection has. *)
Definition freshId (db : Db) (op : Op) : Prop :=
  match op with
  | OpCreate _ newId _ _ _ => readings db !! newId = None
  | _ => True
  end.

(** The lifecycle of the data model: approval and reopening are not
    applied to a rejected reading. *)
Definition respectsRejection (db : Db) (op : Op) : Prop :=
  match op with
  | OpApprove _ readingId _ | OpReopen readingId _ =>
      ∀ r, readings db !! readingId = Some r → effectiveStatus r ≠ rejected
  | _ => True
  end.

(** States reachable by operations that satisfy [guard] where they are
    applied; an operation that throws leaves its state behind unchanged. *)
Inductive reachable (guard : Db → Op → Prop) : Db → Db → Prop :=
  | reachable_refl db : reachable guard db db
  | reachable_step db op db' :
      guard db op →
      reachable guard (runOp op db).1 db' →
      reachable guard db db'.
End HostSpec.

(** A change of the global settings. *)
Inductive SettingsChange : Type :=
  | SetTariff (tariffPerUnit : Qc)
  | SetMinimumPrice (minimumPrice : Qc)
  | SetUnitFactor (unitFactor : Qc).

Definition runSettingsChange (c : SettingsChange) : Firestore unit :=
  match c with
  | SetTariff t => updateGlobalTariff t
  | SetMinimumPrice p => updateMinimumPrice p
  | SetUnitFactor f => updateUnitFactor f
  end.

Definition runSettingsChanges (cs : list SettingsChange) (db : Db) : Db :=
  foldl (λ d c, (runSettingsChange c d).1) db cs.

(** ** Example data *)

Module Examples.

(** A reading as [createReadingFromImage] stores it. *)
Definition submitted (fid : string) (now : Z) (ym : string) : Reading :=
  {| flatId := fid; imageUrl := "data:image/jpeg;base64,"; ocrReading := None;
     ocrConfidence := None; tenantReading := None; correctedReading := None;
     previousReading := None; unitsUsed := None; amount := None;
     status := Some pending; createdAt := Some now; approvedAt := None;
     yearMonth := Some ym; tariffAtApproval := None;
     unitFactorAtApproval := None; rejectionReason := None;
     reopenReason := None |}.

(** February's reading of flat A-101, approved at 100 units. *)
Definition february : Reading :=
  {| flatId := "A-101"; imageUrl := "data:image/jpeg;base64,"; ocrReading := None;
     ocrConfidence := None; tenantReading := None;
     correctedReading := Some (Q2Qc 100);
     previousReading := Some (Q2Qc 0); unitsUsed := Some (Q2Qc 100);
     amount := Some (Q2Qc 1975); status := Some approved;
     createdAt := Some 1739491200000%Z; approvedAt := Some 1739577600000%Z;
     yearMonth := Some "2025-02"; tariffAtApproval := Some (Q2Qc (75 # 10));
     unitFactorAtApproval := Some (Q2Qc (23 # 10)); rejectionReason := None;
     reopenReason := None |}.

Definition march : Reading := submitted "A-101" 1741910400000 "2025-03".

Definition settings75 : gmap string JsVal :=
  {[ "tariffPerUnit" := JNum (Q2Qc (75 # 10));
     "minimumPrice" := JNum (Q2Qc 250);
     "unitFactor" := JNum (Q2Qc (23 # 10)) ]}.

(** Tariff 7.5, minimum price 250, unit factor 2.3; flat A-101 has an
    approved reading of 100 and a pending one. *)
Definition billingDb : Db :=
  {| readings := {[ "feb" := february; "mar" := march ]};
     flats := {[ "A-101" := mkFlat "A-101" None (Q2Qc 0) "u1" None ]};
     globalTariffDoc := Some settings75 |}.

(** No settings document, no flat document, one pending reading. *)
Definition unconfiguredDb : Db :=
  {| readings := {[ "mar" := march ]}; flats := ∅; globalTariffDoc := None |}.

(** One rejected and one pending upload of the same flat and month, as they
    are after a rejection and a second upload. *)
Definition rejectedThenResubmitted : list Op :=
  [ OpCreate 1741910400000 "a" "A-101" "data:image/jpeg;base64," None;
    OpReject "a" (Some "blurred");
    OpCreate 1741996800000 "b" "A-101" "data:image/jpeg;base64," None ].

(** ... then the second upload is approved, reopened and approved again. *)
Definition resubmittedLifecycle : list Op :=
  rejectedThenResubmitted ++
  [ OpApprove 1742083200000 "b" (Q2Qc 150);
    OpReopen "b" (Some "typo");
    OpApprove 1742169600000 "b" (Q2Qc 151) ].

(** ... or the rejected upload is reopened after the second upload. *)
Definition reopenedAfterRejection : list Op :=
  rejectedThenResubmitted ++ [ OpReopen "a" None ].

(** ... or the rejected upload is approved after all. *)
Definition approvedAfterRejection : list Op :=
  rejectedThenResubmitted ++ [ OpApprove 1742083200000 "a" (Q2Qc 150) ].

End Examples.

(** ** The bill in IEEE-754 double precision

    Lines 254 to 264 of [approveReading] on the machine numbers of the
    language, to run the examples without the idealisation to rationals. *)

Module Binary64.

Definition bill (corrected previous unitFactor tariffPerUnit minimumPrice : PrimFloat.float)
  : PrimFloat.float * PrimFloat.float :=
  let rawUnits := PrimFloat.sub corrected previous in
  let unitsUsed := if PrimFloat.ltb 0 rawUnits then rawUnits else 0%float in
  let totalKg := PrimFloat.mul unitsUsed unitFactor in
  let energyAmount := PrimFloat.mul totalKg tariffPerUnit in
  let amount := PrimFloat.add energyAmount minimumPrice in
  (unitsUsed, amount).

(** The tail of [calculateGrandTotal] of the reading card. *)
Definition grandTotal (units unitFactor tariffPerKg : PrimFloat.float) : PrimFloat.float :=
  let minimumCharge := 25%float in
  let totalKg := PrimFloat.mul units unitFactor in
  let energyAmount := PrimFloat.mul totalKg tariffPerKg in
  PrimFloat.add energyAmount minimumCharge.

End Binary64.

(** ** services/readings.ts: the list queries *)

(** Truthiness of an optional string ([if (flatId)]): [undefined] and the
    empty string are falsy. *)
Definition truthyString (s : option string) : option string :=
  match s with
  | Some v => if bool_decide (v = "") then None else Some v
  | None => None
  end.

(** [where('status', '==', s)] and [where('flatId', '==', f)]. *)
Definition whereStatus (s : Status) (r : Reading) : Prop := status r = Some s.
Definition whereFlatId (f : string) (r : Reading) : Prop := flatId r = f.

Global Instance whereStatus_dec s r : Decision (whereStatus s r).
Proof. unfold whereStatus. apply _. Defined.

Global Instance whereFlatId_dec f r : Decision (whereFlatId f r).
Proof. unfold whereFlatId. apply _. Defined.

(** The second constraint that [getApprovedReadings] and
    [getRejectedReadings] push when the flat id is truthy. *)
Definition optionalFlat (fid : option string) (r : Reading) : Prop :=
  match truthyString fid with
  | Some f => whereFlatId f r
  | None => True
  end.

Global Instance optionalFlat_dec fid r : Decision (optionalFlat fid r).
Proof. unfold optionalFlat. destruct (truthyString fid); apply _. Defined.

Definition getTenantReadings (fid : string) : Firestore (list (string * Reading)) :=
  snapshot ← getReadingDocs (whereFlatId fid);
  mret (sortDesc createdKey snapshot).

Definition getPendingReadings : Firestore (list (string * Reading)) :=
  snapshot ← getReadingDocs (whereStatus pending);
  mret (sortDesc createdKey snapshot).

Definition getApprovedReadings (fid : option string)
  : Firestore (list (string * Reading)) :=
  snapshot ← getReadingDocs (λ r, whereStatus approved r ∧ optionalFlat fid r);
  mret (sortDesc approvedKey snapshot).

Definition getRejectedReadings (fid : option string)
  : Firestore (list (string * Reading)) :=
  snapshot ← getReadingDocs (λ r, whereStatus rejected r ∧ optionalFlat fid r);
  mret (sortDesc createdKey snapshot).

(** The value a query returns in a given state. *)
Definition listed (q : Firestore (list (string * Reading))) (db : Db)
  : list (string * Reading) :=
  match (q db).2 with inr l => l | inl _ => [] end.

(** ** More vocabulary for the operations *)

(** The document an operation writes to. *)
Definition target (op : Op) : string :=
  match op with
  | OpCreate _ newId _ _ _ => newId
  | OpApprove _ readingId _ => readingId
  | OpReject readingId _ => readingId
  | OpReopen readingId _ => readingId
  end.

(** No two approved readings of the flat, the one being approved left aside,
    were approved in the same millisecond (created, for those without an
    approval time). *)
Definition distinctApprovalTimes (db : Db) (readingId fid : string) : Prop :=
  ∀ pid p qid q,
    priorApproved db readingId fid pid p →
    priorApproved db readingId fid qid q →
    approvedKey (pid, p) = approvedKey (qid, q) → pid = qid.

(** ** services/readings.ts: the size of the compressed image

    The arithmetic of [img.onload] in [compressImage]: the width and height
    handed to [drawImage].  Reading the file, the canvas and the JPEG
    encoding are not modelled. *)

Definition defaultMaxWidth : Qc := Q2Qc 1200.

Definition resizedDimensions (imgWidth imgHeight maxWidth : Qc) : Qc * Qc :=
  let width := imgWidth in
  let height := imgHeight in
  if bool_decide (maxWidth < width) then
    let height := (height * maxWidth) / width in
    let width := maxWidth in
    (width, height)
  else (width, height).

(** ** scripts/migration: export-firebase.cjs and import-firebase.cjs

    The admin SDK sees the database as collections of untyped documents.  A
    document survives [JSON.stringify] and [JSON.parse] unchanged (the
    documents of this application hold numbers, strings and nulls only), so
    the backup file is modelled by the object that is written to it. *)

Section Migration.
Context {Doc : Type}.

(** Collection name to documents; a collection without documents and a
    missing collection are the same thing. *)
Definition collectionDocs (db : gmap string (gmap string Doc)) (name : string)
  : gmap string Doc :=
  match db !! name with Some docs => docs | None => ∅ end.

(** [ref.set(data)] for [ref = db.collection(name).doc(docId)]. *)
Definition adminSet (name docId : string) (data : Doc)
    (db : gmap string (gmap string Doc)) : gmap string (gmap string Doc) :=
  <[name := <[docId := data]> (collectionDocs db name)]> db.

(** [exportCollection]: [snapshot.forEach(doc => data[doc.id] = doc.data())]. *)
Definition exportCollection (name : string) (db : gmap string (gmap string Doc))
  : gmap string Doc :=
  foldl (λ data doc, <[doc.1 := doc.2]> data) ∅
    (map_to_list (collectionDocs db name)).

(** The object [exportAllData] writes and [importAllData] reads; a key may
    be missing from a file that is read. *)
Record Backup : Type := mkBackup {
  backup_users : option (gmap string Doc);
  backup_flats : option (gmap string Doc);
  backup_readings : option (gmap string Doc);
  backup_settings : option (gmap string Doc)
}.

Definition exportAllData (db : gmap string (gmap string Doc)) : Backup :=
  {| backup_users := Some (exportCollection "users" db);
     backup_flats := Some (exportCollection "flats" db);
     backup_readings := Some (exportCollection "readings" db);
     backup_settings := Some (exportCollection "settings" db) |}.

(** The target database together with the number of [batch.commit()] calls
    made so far. *)
Record Target : Type := mkTarget {
  target_db : gmap string (gmap string Doc);
  target_commits : nat
}.

(** [batch.commit()]: the writes of the batch, in order. *)
Definition batchCommit (name : string) (batch : list (string * Doc)) (t : Target)
  : Target :=
  {| target_db := foldl (λ db w, adminSet name w.1 w.2 db) (target_db t) batch;
     target_commits := S (target_commits t) |}.

(** One turn of the loop of [importCollection] on the locals [batch] and
    [count]. *)
Definition importStep (name : string) (s : Target * list (string * Doc) * nat)
    (entry : string * Doc) : Target * list (string * Doc) * nat :=
  let '(t, batch, count) := s in
  let batch := batch ++ [entry] in
  let count := (count + 1)%nat in
  if bool_decide (count `mod` 1 = 0)%nat then (batchCommit name batch t, [], count)
  else (t, batch, count).

Definition importLoop (name : string) (data : gmap string Doc) (t : Target)
  : Target * list (string * Doc) * nat :=
  foldl (importStep name) (t, [], 0%nat) (map_to_list data).

Definition importCollection (name : string) (data : gmap string Doc) (t : Target)
  : Target :=
  let '(t, batch, count) := importLoop name data t in
  if bool_decide (count `mod` 500 ≠ 0)%nat then batchCommit name batch t else t.

(** [if (backup.x) await importCollection('x', backup.x)]. *)
Definition importIfPresent (name : string) (data : option (gmap string Doc))
    (t : Target) : Target :=
  match data with
  | Some d => importCollection name d t
  | None => t
  end.

Definition importAllData (backup : Backup) (t : Target) : Target :=
  let t := importIfPresent "settings" (backup_settings backup) t in
  let t := importIfPresent "users" (backup_users backup) t in
  let t := importIfPresent "flats" (backup_flats backup) t in
  importIfPresent "readings" (backup_readings backup) t.
End Migration.

Arguments Backup : clear implicits.
Arguments Target : clear implicits.

(** ** components/SummaryModal.tsx *)

(** [list.sort(cmp)] for a comparator that returns a number: [a] goes before
    the first [b] with [cmp(a, b) <= 0]; stable. *)
Fixpoint insertWith {A} (cmp : A → A → Z) (x : A) (l : list A) : list A :=
  match l with
  | [] => [x]
  | y :: ys =>
      if bool_decide (cmp x y ≤ 0)%Z then x :: y :: ys
      else y :: insertWith cmp x ys
  end.

Fixpoint sortWith {A} (cmp : A → A → Z) (l : list A) : list A :=
  match l with
  | [] => []
  | x :: xs => insertWith cmp x (sortWith cmp xs)
  end.

(** A natural number as a number of the language. *)
Definition natQc (n : nat) : Qc := Q2Qc (inject_Z (Z.of_nat n)).

Module SummaryModal.

Definition DEFAULT_UNIT_CONVERSION_KG : Qc := Q2Qc (23 # 10).
Definition DEFAULT_MINIMUM_CHARGE : Qc := Q2Qc 25.

Definition calculateGrandTotal (reading : Reading) : Qc :=
  let units := nullish (unitsUsed reading) (Q2Qc 0) in
  let unitFactor := nullish (unitFactorAtApproval reading) DEFAULT_UNIT_CONVERSION_KG in
  let tariffPerKg := nullish (tariffAtApproval reading) (Q2Qc 0) in
  let totalKg := units * unitFactor in
  let energyAmount := totalKg * tariffPerKg in
  let grandTotal := energyAmount + DEFAULT_MINIMUM_CHARGE in
  grandTotal.

Section Host.
Variable getFullYear : Z → Z.
Variable getMonth : Z → Z.
Variable localeCompare : string → string → Z.

Definition getMonthYearFromTimestamp (timestamp : option Z) : string :=
  match truthy timestamp with
  | None => ""
  | Some t =>
      let year := getFullYear t in
      let month := padStart 2 "0" (pretty (getMonth t + 1)%Z) in
      pretty year +:+ "-" +:+ month
  end.

(** [reading.yearMonth || getMonthYearFromTimestamp(reading.approvedAt)]. *)
Definition monthYear (reading : Reading) : string :=
  match truthyString (yearMonth reading) with
  | Some ym => ym
  | None => getMonthYearFromTimestamp (approvedAt reading)
  end.

Definition filteredReadings (selectedMonth : string)
    (approvedReadings : list (string * Reading)) : list (string * Reading) :=
  if bool_decide (selectedMonth = "") then []
  else
    sortWith (λ a b, localeCompare (flatId a.2) (flatId b.2))
      (filter (λ reading, monthYear reading.2 = selectedMonth) approvedReadings).

Definition totalBillAmount (selectedMonth : string)
    (approvedReadings : list (string * Reading)) : Qc :=
  foldl (λ sum reading, sum + calculateGrandTotal reading.2) (Q2Qc 0)
    (filteredReadings selectedMonth approvedReadings).
End Host.

(** [handleDownloadPdf]: the vertical positions of the successive
    [doc.addImage] calls, one per page.  [fuel] bounds the turns of the
    [while] loop; [None] is a loop that has not ended within it. *)
Definition imageHeight (canvasWidth canvasHeight pageWidth : Qc) : Qc :=
  let imgWidth := pageWidth - Q2Qc 20 in
  (canvasHeight * imgWidth) / canvasWidth.

Fixpoint furtherPages (fuel : nat) (imgHeight pageHeight heightLeft : Qc)
  : option (list Qc) :=
  if bool_decide (Q2Qc 0 ≤ heightLeft) then
    match fuel with
    | O => None
    | S fuel' =>
        let position := heightLeft - imgHeight + Q2Qc 10 in
        match furtherPages fuel' imgHeight pageHeight (heightLeft - pageHeight) with
        | Some rest => Some (position :: rest)
        | None => None
        end
    end
  else Some [].

Definition pagePositions (fuel : nat) (imgHeight pageHeight : Qc) : option (list Qc) :=
  let heightLeft := imgHeight in
  let position := Q2Qc 10 in
  let heightLeft := heightLeft - pageHeight in
  match furtherPages fuel imgHeight pageHeight heightLeft with
  | Some rest => Some (position :: rest)
  | None => None
  end.

End SummaryModal.

(** The sum of [f] over a list, for stating totals. *)
Definition sumOf {A} (f : A → Qc) (l : list A) : Qc :=
  foldr (λ x acc, f x + acc) (Q2Qc 0) l.

(** The energy part of a summary line: units times unit factor times
    tariff, with the fallbacks of the summary. *)
Definition summaryEnergy (reading : Reading) : Qc :=
  nullish (unitsUsed reading) (Q2Qc 0)
  * nullish (unitFactorAtApproval reading) SummaryModal.DEFAULT_UNIT_CONVERSION_KG
  * nullish (tariffAtApproval reading) (Q2Qc 0).

(** ** components/SummaryModal.tsx: the month selector *)

(** The comparator of [list.sort()] on strings: by code units. *)
Definition compareStrings (a b : string) : Z :=
  match String_as_OT.compare a b with
  | Lt => (-1)%Z
  | Eq => 0%Z
  | Gt => 1%Z
  end.

(** [set.add(x)] on a [Set], kept in insertion order. *)
Definition setAdd (x : string) (set : list string) : list string :=
  if bool_decide (x ∈ set) then set else set ++ [x].

Module MonthSelector.
Section Host.
Variable getFullYear : Z → Z.
Variable getMonth : Z → Z.

Definition monthSet (approvedReadings : list (string * Reading)) : list string :=
  foldl (λ set reading,
           let monthYear := SummaryModal.monthYear getFullYear getMonth reading.2 in
           if bool_decide (monthYear ≠ "") then setAdd monthYear set else set)
    [] approvedReadings.

Definition availableMonths (approvedReadings : list (string * Reading))
  : list string :=
  reverse (sortWith compareStrings (monthSet approvedReadings)).

(** The effect that picks a month: the new value of [selectedMonth], for
    [currentMonth] the value of [new Date().toISOString().slice(0, 7)]. *)
Definition defaultMonth (selectedMonth currentMonth : string)
    (availableMonths : list string) : string :=
  match availableMonths with
  | first :: _ =>
      if bool_decide (selectedMonth = "") then
        if bool_decide (currentMonth ∈ availableMonths) then currentMonth
        else first
      else selectedMonth
  | [] => selectedMonth
  end.
End Host.
End MonthSelector.

(** ** components/MeterUploadForm.tsx

    The component state and [handleSubmit].  The file type, [String.trim],
    [Number] (with [None] for [NaN]), the outcome of [uploadMeterImage] for a
    file and the message of an SDK error are parameters. *)

Module MeterUploadForm.
Section Host.
Context {File : Type}.
Variable trim : string → string.
Variable Number : string → option Qc.
Variable uploadMeterImage : File → Error + string.
Variable sdkMessage : string.
Variable getFullYear : Z → Z.
Variable getMonth : Z → Z.
Variable toLocaleDateString : Z → string.

Record State : Type := mkState {
  file : option File;
  tenantReading : string;
  uploading : bool;
  message : option string;
  error : option string
}.

(** [err.message]. *)
Definition messageOf (err : Error) : string :=
  match err with
  | JsError m => m
  | FirestoreNotFound => sdkMessage
  end.

Definition handleSubmit (now : Z) (newId : string) (flat : string)
    (st : State) (db : Db) : State * Db :=
  match file st with
  | None =>
      (mkState (file st) (tenantReading st) (uploading st) (message st)
         (Some "Please choose a meter photo."), db)
  | Some chosen =>
      let readingValue := trim (tenantReading st) in
      if bool_decide (readingValue = "") then
        (mkState (file st) (tenantReading st) (uploading st) (message st)
           (Some "Please enter the meter reading value."), db)
      else
        match Number readingValue with
        | None =>
            (mkState (file st) (tenantReading st) (uploading st) (message st)
               (Some "Please enter a valid meter reading number."), db)
        | Some parsedReading =>
            (* setError(null); setMessage(null); setUploading(true) *)
            let st := mkState (file st) (tenantReading st) true None None in
            let '(st, db) :=
              match uploadMeterImage chosen with
              | inl err =>
                  (mkState (file st) (tenantReading st) (uploading st) (message st)
                     (Some (messageOf err)), db)
              | inr imageUrl =>
                  match createReadingFromImage getFullYear getMonth toLocaleDateString
                          now newId flat imageUrl (Some parsedReading) db with
                  | (db', inl err) =>
                      (mkState (file st) (tenantReading st) (uploading st) (message st)
                         (Some (messageOf err)), db')
                  | (db', inr _) =>
                      (mkState None ""  (uploading st)
                         (Some "Image uploaded successfully. Your reading will be reviewed by an admin.")
                         (error st), db')
                  end
              end in
            (* finally: setUploading(false) *)
            (mkState (file st) (tenantReading st) false (message st) (error st), db)
        end
  end.
End Host.
End MeterUploadForm.

(** * Properties *)

(** ** The concrete host *)

Example getYearMonth_2025_03 :
  getYearMonth UtcHost.getFullYear UtcHost.getMonth 1741910400000 = "2025-03".
Proof. vm_compute. reflexivity. Qed.

Example getYearMonth_2024_12 :
  getYearMonth UtcHost.getFullYear UtcHost.getMonth 1735689599999 = "2024-12".
Proof. vm_compute. reflexivity. Qed.

Example toLocaleDateString_2025_03_14 :
  UtcHost.toLocaleDateString 1741910400000 = "3/14/2025".
Proof. vm_compute. reflexivity. Qed.

(** ** Sorting *)

Section Sorting.
Context {A : Type} (key : A → Z).

Lemma insertDesc_Permutation x l : insertDesc key x l ≡ₚ x :: l.
Proof.
  induction l as [|y ys IH]; simpl; [done|].
  case_bool_decide; [done|].
  rewrite IH. apply Permutation_swap.
Qed.

Lemma sortDesc_Permutation l : sortDesc key l ≡ₚ l.
Proof.
  induction l as [|x xs IH]; simpl; [done|].
  by rewrite insertDesc_Permutation, IH.
Qed.

Lemma head_insertDesc x l h :
  head (insertDesc key x l) = Some h →
  (h = x ∧ ∀ h', head l = Some h' → (key h' ≤ key x)%Z) ∨
  (head l = Some h ∧ (key x < key h)%Z).
Proof.
  destruct l as [|y ys]; simpl.
  - intros [= <-]. left. split; [done|]. intros h' [=].
  - case_bool_decide as Hle; simpl; intros [= <-].
    + left. split; [done|]. by intros h' [= <-].
    + right. split; [done|]. lia.
Qed.

(** The head of the sorted list is an element with the greatest key. *)
Lemma head_sortDesc l h :
  head (sortDesc key l) = Some h →
  h ∈ l ∧ ∀ y, y ∈ l → (key y ≤ key h)%Z.
Proof.
  revert h. induction l as [|x xs IH]; simpl; intros h Hh; [done|].
  apply head_insertDesc in Hh as [[-> Hx]|[Hh Hlt]].
  - split; [by left|].
    intros y [->|Hy]%elem_of_cons; [done|].
    destruct (head (sortDesc key xs)) as [h'|] eqn:Hhd.
    + destruct (IH h' eq_refl) as [_ Hmax].
      specialize (Hx h' eq_refl). specialize (Hmax y Hy). lia.
    + apply head_None in Hhd.
      pose proof (sortDesc_Permutation xs) as Hp.
      rewrite Hhd in Hp. apply Permutation_nil_l in Hp. subst xs.
      by apply elem_of_nil in Hy.
  - destruct (IH h Hh) as [Hin Hmax]. split; [by right|].
    intros y [->|Hy]%elem_of_cons; [lia|by apply Hmax].
Qed.

Lemma head_sortDesc_None l : head (sortDesc key l) = None ↔ l = [].
Proof.
  split; [|by intros ->].
  intros Hhd%head_None.
  pose proof (sortDesc_Permutation l) as Hp.
  rewrite Hhd in Hp. by apply Permutation_nil_l in Hp.
Qed.
End Sorting.

(** ** The settings getters *)

Lemma getGlobalTariff_run db : getGlobalTariff db = (db, inr (currentTariff db)).
Proof.
  unfold currentTariff, getGlobalTariff, mbind, Firestore_bind, getSettingsDoc, mret, Firestore_ret.
  by destruct (globalTariffDoc db).
Qed.

Lemma getMinimumPrice_run db :
  getMinimumPrice db = (db, inr (currentMinimumPrice db)).
Proof.
  unfold currentMinimumPrice, getMinimumPrice, mbind, Firestore_bind, getSettingsDoc, mret, Firestore_ret.
  by destruct (globalTariffDoc db).
Qed.

Lemma getUnitFactor_run db : getUnitFactor db = (db, inr (currentUnitFactor db)).
Proof.
  unfold currentUnitFactor, getUnitFactor, mbind, Firestore_bind, getSettingsDoc, mret, Firestore_ret.
  by destruct (globalTariffDoc db).
Qed.

Lemma currentTariff_absent db : globalTariffDoc db = None → currentTariff db = Q2Qc 0.
Proof.
  intros H. unfold currentTariff, getGlobalTariff, mbind, Firestore_bind, getSettingsDoc.
  simpl. by rewrite H.
Qed.

Lemma currentTariff_not_number db data :
  globalTariffDoc db = Some data →
  (∀ n, data !! "tariffPerUnit" ≠ Some (JNum n)) →
  currentTariff db = Q2Qc 0.
Proof.
  intros H Hn. unfold currentTariff, getGlobalTariff, mbind, Firestore_bind, getSettingsDoc.
  simpl. rewrite H. simpl.
  destruct (data !! "tariffPerUnit") as [[n| | |]|] eqn:E; try done.
  by destruct (Hn n).
Qed.

Lemma currentMinimumPrice_absent db :
  globalTariffDoc db = None → currentMinimumPrice db = Q2Qc 250.
Proof.
  intros H. unfold currentMinimumPrice, getMinimumPrice, mbind, Firestore_bind, getSettingsDoc.
  simpl. by rewrite H.
Qed.

Lemma currentUnitFactor_absent db :
  globalTariffDoc db = None → currentUnitFactor db = Q2Qc (23 # 10).
Proof.
  intros H. unfold currentUnitFactor, getUnitFactor, mbind, Firestore_bind, getSettingsDoc.
  simpl. by rewrite H.
Qed.

(** ** What [approveReading] does *)

Lemma approveReading_run now readingId corrected db reading :
  readings db !! readingId = Some reading →
  approveReading now readingId corrected db =
    (mkDb (<[readingId := approvedRecord db now readingId corrected reading]> (readings db))
          (flats db) (globalTariffDoc db),
     inr ()).
Proof.
  intros Hr.
  unfold approveReading.
  unfold mbind at 1. unfold Firestore_bind at 1.
  unfold getReadingDoc. rewrite Hr.
  unfold mbind at 1. unfold Firestore_bind at 1. rewrite getGlobalTariff_run.
  unfold mbind at 1. unfold Firestore_bind at 1. rewrite getMinimumPrice_run.
  unfold mbind at 1. unfold Firestore_bind at 1. rewrite getUnitFactor_run.
  unfold mbind at 1. unfold Firestore_bind at 1. unfold getReadingDocs.
  fold (prevList db readingId (flatId reading)).
  fold (prev db readingId (flatId reading)).
  unfold mbind at 1. unfold Firestore_bind at 1.
  assert (Hfin :
    ∃ o, (match
            match prev db readingId (flatId reading) with
            | Some p => nullishOpt (correctedReading p.2) (ocrReading p.2)
            | None => None
            end
          with
          | Some v => mret (Some v)
          | None => flat ← getFlatByFlatId (flatId reading); mret (flat ≫= initialReading)
          end) db = (db, inr o) ∧
         nullish o (Q2Qc 0) = finalPreviousReading db readingId (flatId reading)).
  { unfold finalPreviousReading, configuredInitialReading.
    destruct (prev db readingId (flatId reading)) as [p|]; simpl.
    - destruct (nullishOpt (correctedReading p.2) (ocrReading p.2)) as [v|]; simpl.
      + by eexists.
      + by eexists.
    - by eexists. }
  destruct Hfin as (o & -> & Ho).
  unfold updateDoc. rewrite Hr. rewrite Ho.
  reflexivity.
Qed.

Lemma approveReading_lookup now readingId corrected db reading :
  readings db !! readingId = Some reading →
  readings (approveReading now readingId corrected db).1 !! readingId
    = Some (approvedRecord db now readingId corrected reading).
Proof.
  intros Hr. rewrite (approveReading_run _ _ _ _ _ Hr). simpl.
  apply lookup_insert_eq.
Qed.

Lemma approveReading_lookup_ne now readingId corrected db other :
  other ≠ readingId →
  readings (approveReading now readingId corrected db).1 !! other
    = readings db !! other.
Proof.
  intros Hne. destruct (readings db !! readingId) as [reading|] eqn:Hr.
  - rewrite (approveReading_run _ _ _ _ _ Hr). simpl.
    by apply lookup_insert_ne.
  - unfold approveReading, mbind, Firestore_bind, getReadingDoc.
    by rewrite Hr.
Qed.

Lemma approveReading_missing now readingId corrected db :
  readings db !! readingId = None →
  approveReading now readingId corrected db = (db, inl (JsError "Reading not found")).
Proof.
  intros Hr. unfold approveReading, mbind, Firestore_bind, getReadingDoc.
  by rewrite Hr.
Qed.

(** ** Arithmetic of the clamp *)

Lemma Qc_pos_minus (c p : Qc) : Q2Qc 0 < c - p ↔ p < c.
Proof. symmetry. apply Qclt_minus_iff. Qed.

Lemma clampedUnits_spec_max c p : clampedUnits c p = spec_max (c - p) (Q2Qc 0).
Proof.
  unfold clampedUnits, spec_max.
  case_bool_decide as Hpos; case_bool_decide as Hle; try done.
  - by destruct (Qclt_not_le _ _ Hpos).
  - by destruct Hle; apply Qcnot_lt_le.
Qed.

Lemma clampedUnits_nonneg c p : Q2Qc 0 ≤ clampedUnits c p.
Proof.
  unfold clampedUnits. case_bool_decide as Hpos.
  - by apply Qclt_le_weak.
  - apply Qcle_refl.
Qed.

Lemma clampedUnits_below c p : c < p → clampedUnits c p = Q2Qc 0.
Proof.
  intros Hlt. unfold clampedUnits. case_bool_decide as Hpos; [|done].
  apply (proj1 (Qc_pos_minus c p)) in Hpos.
  destruct (Qclt_not_le _ _ Hlt). by apply Qclt_le_weak.
Qed.

Lemma clampedUnits_150_100 : clampedUnits (Q2Qc 150) (Q2Qc 100) = Q2Qc 50.
Proof. apply Qc_is_canon. reflexivity. Qed.

Lemma amount_50_units :
  spec_amount (Q2Qc 50) (Q2Qc (23 # 10)) (Q2Qc (75 # 10)) (Q2Qc 250)
    = Q2Qc (11125 # 10).
Proof. apply Qc_is_canon. reflexivity. Qed.

Lemma amount_zero_units uf t mp : Q2Qc 0 * uf * t + mp = mp.
Proof. ring. Qed.

Lemma amount_zero_tariff u uf mp : u * uf * Q2Qc 0 + mp = mp.
Proof. ring. Qed.

(** ** The amount ([C1]) *)

(** C1. Every approval persists
    [amount = unitsUsed * unitFactor * tariffPerUnit + minimumPrice], the
    three settings being those of the state the approval runs in; the minimum
    price is a summand whatever the energy amount is.  With a previous reading
    of 100, a corrected reading of 150, unit factor 2.3, tariff 7.5 and
    minimum price 250 the units are 50 and the amount is 1112.5. *)
Theorem approveReading_amount now readingId corrected db reading :
  readings db !! readingId = Some reading →
  ∃ r' units,
    (approveReading now readingId corrected db).2 = inr () ∧
    readings (approveReading now readingId corrected db).1 !! readingId = Some r' ∧
    unitsUsed r' = Some units ∧
    amount r' = Some (spec_amount units (currentUnitFactor db)
                        (currentTariff db) (currentMinimumPrice db)) ∧
    amount r' = Some (units * currentUnitFactor db * currentTariff db
                      + currentMinimumPrice db) ∧
    (finalPreviousReading db readingId (flatId reading) = Q2Qc 100 →
     corrected = Q2Qc 150 →
     currentUnitFactor db = Q2Qc (23 # 10) →
     currentTariff db = Q2Qc (75 # 10) →
     currentMinimumPrice db = Q2Qc 250 →
     units = Q2Qc 50 ∧ amount r' = Some (Q2Qc (11125 # 10))).
Proof.
  intros Hr.
  exists (approvedRecord db now readingId corrected reading),
    (clampedUnits corrected (finalPreviousReading db readingId (flatId reading))).
  split; [by rewrite (approveReading_run _ _ _ _ _ Hr)|].
  split; [by apply approveReading_lookup|].
  do 3 (split; [reflexivity|]).
  intros Hp Hc Hf Ht Hm. split.
  - rewrite Hp, Hc. apply clampedUnits_150_100.
  - simpl. rewrite Hp, Hc, Hf, Ht, Hm, clampedUnits_150_100.
    f_equal. apply amount_50_units.
Qed.

(** The example of C1 on a concrete database. *)
Lemma approveReading_amount_witness :
  readings Examples.billingDb !! "mar" = Some Examples.march ∧
  ∃ r',
    readings (approveReading 1742000000000 "mar" (Q2Qc 150) Examples.billingDb).1 !! "mar"
      = Some r' ∧
    unitsUsed r' = Some (Q2Qc 50) ∧
    amount r' = Some (Q2Qc (11125 # 10)).
Proof.
  split; [reflexivity|].
  destruct (approveReading_amount 1742000000000 "mar" (Q2Qc 150)
              Examples.billingDb Examples.march eq_refl)
    as (r' & units & _ & Hl & Hu & _ & _ & Hex).
  destruct Hex as [Hunits Hamt].
  - apply Qc_is_canon. vm_compute. reflexivity.
  - reflexivity.
  - apply Qc_is_canon. vm_compute. reflexivity.
  - apply Qc_is_canon. vm_compute. reflexivity.
  - apply Qc_is_canon. vm_compute. reflexivity.
  - exists r'. split; [exact Hl|].
    split; [rewrite Hu, Hunits; reflexivity|exact Hamt].
Defined.

(** ** Units used ([C3]) *)

(** C3. An approval with corrected reading [c] and previous reading [p]
    persists [unitsUsed = max(c - p, 0)]; the units are never negative, and
    when [c < p] they are 0 and the amount is exactly the minimum price. *)
Theorem approveReading_unitsUsed now readingId corrected db reading :
  readings db !! readingId = Some reading →
  ∃ r' previous units,
    readings (approveReading now readingId corrected db).1 !! readingId = Some r' ∧
    correctedReading r' = Some corrected ∧
    previousReading r' = Some previous ∧
    previous = finalPreviousReading db readingId (flatId reading) ∧
    unitsUsed r' = Some units ∧
    units = spec_max (corrected - previous) (Q2Qc 0) ∧
    Q2Qc 0 ≤ units ∧
    (corrected < previous →
     units = Q2Qc 0 ∧ amount r' = Some (currentMinimumPrice db)).
Proof.
  intros Hr.
  exists (approvedRecord db now readingId corrected reading),
    (finalPreviousReading db readingId (flatId reading)),
    (clampedUnits corrected (finalPreviousReading db readingId (flatId reading))).
  split; [by apply approveReading_lookup|].
  do 4 (split; [reflexivity|]).
  split; [apply clampedUnits_spec_max|].
  split; [apply clampedUnits_nonneg|].
  intros Hlt. split; [by apply clampedUnits_below|].
  simpl. rewrite clampedUnits_below by done. f_equal. apply amount_zero_units.
Qed.

(** A meter reset on the example database: 50 after 100. *)
Lemma approveReading_unitsUsed_witness :
  readings Examples.billingDb !! "mar" = Some Examples.march ∧
  ∃ r',
    readings (approveReading 1742000000000 "mar" (Q2Qc 50) Examples.billingDb).1 !! "mar"
      = Some r' ∧
    previousReading r' = Some (Q2Qc 100) ∧
    unitsUsed r' = Some (Q2Qc 0) ∧
    amount r' = Some (Q2Qc 250).
Proof.
  split; [reflexivity|].
  destruct (approveReading_unitsUsed 1742000000000 "mar" (Q2Qc 50)
              Examples.billingDb Examples.march eq_refl)
    as (r' & previous & units & Hl & _ & Hp & Hprev & Hu & _ & _ & Hreset).
  assert (Hprev' : previous = Q2Qc 100).
  { rewrite Hprev. apply Qc_is_canon. vm_compute. reflexivity. }
  destruct Hreset as [Hunits Hamt].
  - rewrite Hprev'. reflexivity.
  - exists r'. split; [exact Hl|].
    split; [rewrite Hp, Hprev'; reflexivity|].
    split; [rewrite Hu, Hunits; reflexivity|].
    rewrite Hamt. reflexivity.
Defined.

(** ** When the approval fails ([C9]) *)

(** C9. [approveReading] throws exactly when the target reading does not
    exist, and then leaves the database as it was; it checks nothing else: an
    existing reading is approved whatever its status is. *)
Theorem approveReading_error_iff now readingId corrected db :
  ((∃ e, (approveReading now readingId corrected db).2 = inl e)
     ↔ readings db !! readingId = None) ∧
  (readings db !! readingId = None →
     approveReading now readingId corrected db
       = (db, inl (JsError "Reading not found"))) ∧
  (∀ reading,
     readings db !! readingId = Some reading →
     (approveReading now readingId corrected db).2 = inr () ∧
     ∃ r', readings (approveReading now readingId corrected db).1 !! readingId
             = Some r' ∧
           status r' = Some approved).
Proof.
  split; [|split].
  - split.
    + intros [e He]. destruct (readings db !! readingId) as [reading|] eqn:Hr; [|done].
      by rewrite (approveReading_run _ _ _ _ _ Hr) in He.
    + intros Hr. rewrite (approveReading_missing _ _ _ _ Hr). by eexists.
  - apply approveReading_missing.
  - intros reading Hr. split.
    + by rewrite (approveReading_run _ _ _ _ _ Hr).
    + exists (approvedRecord db now readingId corrected reading).
      split; [by apply approveReading_lookup|done].
Qed.

(** On the example database: an unknown id fails and changes nothing; the
    already approved reading of February is approved again. *)
Lemma approveReading_error_iff_witness :
  approveReading 1742000000000 "nope" (Q2Qc 150) Examples.billingDb
    = (Examples.billingDb, inl (JsError "Reading not found")) ∧
  status Examples.february = Some approved ∧
  (approveReading 1742000000000 "feb" (Q2Qc 120) Examples.billingDb).2 = inr ().
Proof.
  destruct (approveReading_error_iff 1742000000000 "nope" (Q2Qc 150)
              Examples.billingDb) as (_ & Hmiss & _).
  destruct (approveReading_error_iff 1742000000000 "feb" (Q2Qc 120)
              Examples.billingDb) as (_ & _ & Hok).
  split; [apply Hmiss; reflexivity|].
  split; [reflexivity|].
  apply (Hok Examples.february). reflexivity.
Defined.

(** ** Frozen settings ([C6]) *)

Lemma runSettingsChange_readings c db :
  readings (runSettingsChange c db).1 = readings db.
Proof. by destruct c. Qed.

Lemma runSettingsChanges_readings cs db :
  readings (runSettingsChanges cs db) = readings db.
Proof.
  revert db. induction cs as [|c cs IH]; intros db; [done|].
  unfold runSettingsChanges in *. simpl. rewrite IH.
  apply runSettingsChange_readings.
Qed.

Lemma updateGlobalTariff_currentTariff t db :
  currentTariff (updateGlobalTariff t db).1 = t.
Proof.
  unfold currentTariff, getGlobalTariff, mbind, Firestore_bind, getSettingsDoc.
  simpl. by rewrite lookup_insert_eq.
Qed.

(** C6. The amount, [tariffAtApproval] and [unitFactorAtApproval] of an
    approved reading are the settings of the state in which it was approved,
    and no later change of the global settings (tariff, minimum price, unit
    factor) alters any stored reading. *)
Theorem approved_fields_frozen now readingId corrected db reading cs :
  readings db !! readingId = Some reading →
  ∃ r' units,
    readings (approveReading now readingId corrected db).1 !! readingId = Some r' ∧
    status r' = Some approved ∧
    unitsUsed r' = Some units ∧
    tariffAtApproval r' = Some (currentTariff db) ∧
    unitFactorAtApproval r' = Some (currentUnitFactor db) ∧
    amount r' = Some (spec_amount units (currentUnitFactor db)
                        (currentTariff db) (currentMinimumPrice db)) ∧
    readings (runSettingsChanges cs (approveReading now readingId corrected db).1)
      = readings (approveReading now readingId corrected db).1 ∧
    readings (runSettingsChanges cs (approveReading now readingId corrected db).1)
      !! readingId = Some r'.
Proof.
  intros Hr.
  exists (approvedRecord db now readingId corrected reading),
    (clampedUnits corrected (finalPreviousReading db readingId (flatId reading))).
  split; [by apply approveReading_lookup|].
  do 5 (split; [reflexivity|]).
  split; [apply runSettingsChanges_readings|].
  rewrite runSettingsChanges_readings. by apply approveReading_lookup.
Qed.

(** Approve at tariff 7.5, then raise the tariff to 9: the stored amount
    stays 1112.5 although the current tariff is 9. *)
Lemma approved_fields_frozen_witness :
  readings Examples.billingDb !! "mar" = Some Examples.march ∧
  ∃ r',
    readings (runSettingsChanges [SetTariff (Q2Qc 9)]
                (approveReading 1742000000000 "mar" (Q2Qc 150) Examples.billingDb).1)
      !! "mar" = Some r' ∧
    tariffAtApproval r' = Some (Q2Qc (75 # 10)) ∧
    currentTariff (runSettingsChanges [SetTariff (Q2Qc 9)]
                (approveReading 1742000000000 "mar" (Q2Qc 150) Examples.billingDb).1)
      = Q2Qc 9.
Proof.
  split; [reflexivity|].
  destruct (approved_fields_frozen 1742000000000 "mar" (Q2Qc 150)
              Examples.billingDb Examples.march [SetTariff (Q2Qc 9)] eq_refl)
    as (r' & units & _ & _ & _ & Ht & _ & _ & _ & Hl).
  exists r'. split; [exact Hl|]. split.
  - rewrite Ht. reflexivity.
  - apply updateGlobalTariff_currentTariff.
Defined.

(** ** An unconfigured system ([C10]) *)

(** C10. When the settings document is absent, or its [tariffPerUnit] is not
    a number, [getGlobalTariff] returns 0; with the document absent
    [getMinimumPrice] returns 250 and [getUnitFactor] 2.3, so every approval
    in an unconfigured system stores the amount 250 whatever the units are. *)
Theorem getGlobalTariff_unconfigured db :
  (globalTariffDoc db = None ∨
   ∃ data, globalTariffDoc db = Some data ∧
           ∀ n, data !! "tariffPerUnit" ≠ Some (JNum n)) →
  getGlobalTariff db = (db, inr (Q2Qc 0)) ∧
  (globalTariffDoc db = None →
   getMinimumPrice db = (db, inr (Q2Qc 250)) ∧
   getUnitFactor db = (db, inr (Q2Qc (23 # 10))) ∧
   ∀ now readingId corrected reading,
     readings db !! readingId = Some reading →
     ∃ r', readings (approveReading now readingId corrected db).1 !! readingId
             = Some r' ∧
           amount r' = Some (Q2Qc 250)).
Proof.
  intros Hcfg.
  assert (Ht : currentTariff db = Q2Qc 0).
  { destruct Hcfg as [Hnone|(data & Hsome & Hnan)].
    - by apply currentTariff_absent.
    - by apply (currentTariff_not_number db data). }
  split; [by rewrite getGlobalTariff_run, Ht|].
  intros Hnone.
  split; [by rewrite getMinimumPrice_run, currentMinimumPrice_absent|].
  split; [by rewrite getUnitFactor_run, currentUnitFactor_absent|].
  intros now readingId corrected reading Hr.
  exists (approvedRecord db now readingId corrected reading).
  split; [by apply approveReading_lookup|].
  simpl. rewrite Ht, currentMinimumPrice_absent by done.
  f_equal. apply amount_zero_tariff.
Qed.

(** No settings document: 150 units are billed 250. *)
Lemma getGlobalTariff_unconfigured_witness :
  globalTariffDoc Examples.unconfiguredDb = None ∧
  getGlobalTariff Examples.unconfiguredDb = (Examples.unconfiguredDb, inr (Q2Qc 0)) ∧
  ∃ r',
    readings (approveReading 1742000000000 "mar" (Q2Qc 150) Examples.unconfiguredDb).1
      !! "mar" = Some r' ∧
    unitsUsed r' = Some (Q2Qc 150) ∧
    amount r' = Some (Q2Qc 250).
Proof.
  split; [reflexivity|].
  destruct (getGlobalTariff_unconfigured Examples.unconfiguredDb (or_introl eq_refl))
    as (Hg & Hrest).
  split; [exact Hg|].
  destruct (Hrest eq_refl) as (_ & _ & Happ).
  destruct (Happ 1742000000000%Z "mar" (Q2Qc 150) Examples.march eq_refl)
    as (r' & Hl & Ha).
  exists r'. split; [exact Hl|]. split; [|exact Ha].
  rewrite (approveReading_lookup 1742000000000 "mar" (Q2Qc 150)
             Examples.unconfiguredDb Examples.march eq_refl) in Hl.
  injection Hl as <-. vm_compute. reflexivity.
Defined.

(** A settings document whose tariff is a string is read as tariff 0. *)
Example getGlobalTariff_string :
  getGlobalTariff (mkDb ∅ ∅ (Some {[ "tariffPerUnit" := JStr "7.5" ]}))
    = (mkDb ∅ ∅ (Some {[ "tariffPerUnit" := JStr "7.5" ]}), inr (Q2Qc 0)).
Proof. reflexivity. Qed.

(** ** Reopening ([C7]) *)

Lemma updateDoc_run readingId fields db r :
  readings db !! readingId = Some r →
  updateDoc readingId fields db =
    (mkDb (<[readingId := fields r]> (readings db)) (flats db) (globalTariffDoc db),
     inr ()).
Proof. intros Hr. unfold updateDoc. by rewrite Hr. Qed.

Lemma updateDoc_missing readingId fields db :
  readings db !! readingId = None →
  updateDoc readingId fields db = (db, inl FirestoreNotFound).
Proof. intros Hr. unfold updateDoc. by rewrite Hr. Qed.

(** What reopening does to an approved reading: the status, the two reasons
    and the fields the update lists are reset; every other field, the unit
    factor frozen at approval among them, is kept. *)
Lemma reopenReading_fields readingId reason db r :
  readings db !! readingId = Some r →
  status r = Some approved →
  (reopenReading readingId reason db).2 = inr () ∧
  ∃ r', readings (reopenReading readingId reason db).1 !! readingId = Some r' ∧
    status r' = Some pending ∧
    reopenReason r' = reason ∧
    rejectionReason r' = None ∧
    unitsUsed r' = None ∧
    amount r' = None ∧
    approvedAt r' = None ∧
    tariffAtApproval r' = None ∧
    unitFactorAtApproval r' = unitFactorAtApproval r ∧
    correctedReading r' = correctedReading r ∧
    previousReading r' = previousReading r ∧
    imageUrl r' = imageUrl r ∧
    tenantReading r' = tenantReading r ∧
    createdAt r' = createdAt r ∧
    flatId r' = flatId r ∧
    yearMonth r' = yearMonth r.
Proof.
  intros Hr _. unfold reopenReading.
  rewrite (updateDoc_run _ _ _ _ Hr). simpl.
  split; [done|]. eexists. split; [apply lookup_insert_eq|].
  simpl. by destruct reason.
Qed.

(** C7, at the failing input: the March reading is approved at unit factor
    2.3 and then reopened.  The status is back to pending, the reason is
    recorded, units, amount, approval time and frozen tariff are cleared and
    the submission metadata is kept, but the unit factor frozen at approval
    is still stored. *)
Theorem reopenReading_keeps_unitFactorAtApproval :
  ∃ r1 r2,
    readings (approveReading 1742000000000 "mar" (Q2Qc 150) Examples.billingDb).1
      !! "mar" = Some r1 ∧
    status r1 = Some approved ∧
    unitFactorAtApproval r1 = Some (Q2Qc (23 # 10)) ∧
    readings (reopenReading "mar" (Some "disputed")
                (approveReading 1742000000000 "mar" (Q2Qc 150) Examples.billingDb).1).1
      !! "mar" = Some r2 ∧
    status r2 = Some pending ∧
    reopenReason r2 = Some "disputed" ∧
    rejectionReason r2 = None ∧
    unitsUsed r2 = None ∧
    amount r2 = None ∧
    approvedAt r2 = None ∧
    tariffAtApproval r2 = None ∧
    imageUrl r2 = imageUrl Examples.march ∧
    tenantReading r2 = tenantReading Examples.march ∧
    createdAt r2 = createdAt Examples.march ∧
    unitFactorAtApproval r2 = Some (Q2Qc (23 # 10)) ∧
    unitFactorAtApproval r2 ≠ None.
Proof.
  pose proof (approveReading_lookup 1742000000000 "mar" (Q2Qc 150)
                Examples.billingDb Examples.march eq_refl) as H1.
  destruct (reopenReading_fields "mar" (Some "disputed") _ _ H1 eq_refl)
    as (_ & r2 & H2 & Hst & Hre & Hrj & Hu & Ha & Hat & Ht & Huf & _ & _ & Hi & Hte & Hc & _).
  assert (Hfac : unitFactorAtApproval
                   (approvedRecord Examples.billingDb 1742000000000 "mar" (Q2Qc 150)
                      Examples.march) = Some (Q2Qc (23 # 10))).
  { vm_compute. reflexivity. }
  exists (approvedRecord Examples.billingDb 1742000000000 "mar" (Q2Qc 150)
            Examples.march), r2.
  split; [exact H1|].
  split; [reflexivity|].
  split; [exact Hfac|].
  split; [exact H2|].
  split; [exact Hst|].
  split; [exact Hre|].
  split; [exact Hrj|].
  split; [exact Hu|].
  split; [exact Ha|].
  split; [exact Hat|].
  split; [exact Ht|].
  split; [exact Hi|].
  split; [exact Hte|].
  split; [exact Hc|].
  rewrite Huf, Hfac. split; [reflexivity|discriminate].
Qed.

(** ** The total shown on a reading card ([C8]) *)

(** For a reading that [approveReading] has just written, the card shows
    the energy amount plus 25, whatever the minimum price of the settings
    is. *)
Lemma calculateGrandTotal_approved now readingId corrected db reading :
  ∃ units,
    unitsUsed (approvedRecord db now readingId corrected reading) = Some units ∧
    amount (approvedRecord db now readingId corrected reading)
      = Some (units * currentUnitFactor db * currentTariff db + currentMinimumPrice db) ∧
    ReadingCard.calculateGrandTotal (approvedRecord db now readingId corrected reading)
      = units * currentUnitFactor db * currentTariff db + Q2Qc 25.
Proof. eexists. split; [reflexivity|]. split; reflexivity. Qed.

(** C8, at the failing input: with tariff 7.5, unit factor 2.3 and minimum
    price 250, approving 150 after 100 stores the amount 1112.5 together with
    both frozen fields, and the card's grand total of that reading is
    887.5. *)
Theorem calculateGrandTotal_differs_from_amount :
  ∃ r',
    readings (approveReading 1742000000000 "mar" (Q2Qc 150) Examples.billingDb).1
      !! "mar" = Some r' ∧
    status r' = Some approved ∧
    tariffAtApproval r' = Some (Q2Qc (75 # 10)) ∧
    unitFactorAtApproval r' = Some (Q2Qc (23 # 10)) ∧
    amount r' = Some (Q2Qc (11125 # 10)) ∧
    ReadingCard.calculateGrandTotal r' = Q2Qc (8875 # 10) ∧
    Some (ReadingCard.calculateGrandTotal r') ≠ amount r'.
Proof.
  exists (approvedRecord Examples.billingDb 1742000000000 "mar" (Q2Qc 150)
            Examples.march).
  assert (Ha : amount
                 (approvedRecord Examples.billingDb 1742000000000 "mar" (Q2Qc 150)
                    Examples.march) = Some (Q2Qc (11125 # 10))).
  { cbn [amount approvedRecord]. f_equal. apply Qc_is_canon. vm_compute. reflexivity. }
  assert (Hg : ReadingCard.calculateGrandTotal
                 (approvedRecord Examples.billingDb 1742000000000 "mar" (Q2Qc 150)
                    Examples.march) = Q2Qc (8875 # 10)).
  { apply Qc_is_canon. vm_compute. reflexivity. }
  split; [exact (approveReading_lookup 1742000000000 "mar" (Q2Qc 150)
                   Examples.billingDb Examples.march eq_refl)|].
  split; [reflexivity|].
  split; [vm_compute; reflexivity|].
  split; [vm_compute; reflexivity|].
  split; [exact Ha|].
  split; [exact Hg|].
  rewrite Hg, Ha. intros Heq.
  apply (f_equal (fmap this)) in Heq. vm_compute in Heq. discriminate Heq.
Qed.

(** ** The previous reading ([C2]) *)

Lemma elem_of_prevList db readingId fid pid p :
  (pid, p) ∈ prevList db readingId fid ↔ priorApproved db readingId fid pid p.
Proof.
  unfold prevList, priorApproved.
  rewrite !list_elem_of_filter, elem_of_map_to_list. simpl. tauto.
Qed.

Lemma approvedKey_spec_timestamp d :
  approvedAt d.2 ≠ Some 0%Z → approvedKey d = spec_timestamp d.2.
Proof.
  unfold approvedKey, spec_timestamp, orElse. intros Hnz.
  destruct (approvedAt d.2) as [t|].
  - case_bool_decide as Ht; [by subst t|done].
  - destruct (createdAt d.2) as [c|]; simpl; [|done].
    case_bool_decide as Hc; [by subst c|done].
Qed.

Lemma prev_None db readingId fid :
  prev db readingId fid = None ↔ ∀ pid p, ¬ priorApproved db readingId fid pid p.
Proof.
  unfold prev. rewrite head_sortDesc_None. split.
  - intros Hnil pid p Hp. apply elem_of_prevList in Hp.
    rewrite Hnil in Hp. by apply elem_of_nil in Hp.
  - intros Hno. apply elem_of_nil_inv. intros [pid p] Hin.
    apply elem_of_prevList in Hin. by apply (Hno pid p).
Qed.

Lemma prev_Some db readingId fid pid p :
  prev db readingId fid = Some (pid, p) →
  priorApproved db readingId fid pid p ∧
  ∀ qid q, priorApproved db readingId fid qid q →
           (approvedKey (qid, q) ≤ approvedKey (pid, p))%Z.
Proof.
  unfold prev. intros [Hin Hmax]%head_sortDesc. split.
  - by apply elem_of_prevList.
  - intros qid q Hq. apply Hmax. by apply elem_of_prevList.
Qed.

(** C2. The previous reading of an approval: when the flat has approved
    readings other than the one being approved, one of them with the most
    recent approval timestamp (creation timestamp when there is no approval
    timestamp) supplies its corrected value, or else its OCR value; when the
    flat has none, the initial reading configured for the flat is used, and 0
    when that is absent too.  (A most recent approved reading that carries
    neither value is passed over in favour of the initial reading.)
    Approval timestamps are those of [Date.now()], hence not 0. *)
Theorem approveReading_previousReading now readingId corrected db reading :
  readings db !! readingId = Some reading →
  (∀ pid p, priorApproved db readingId (flatId reading) pid p →
            approvedAt p ≠ Some 0%Z) →
  ∃ r' previous,
    readings (approveReading now readingId corrected db).1 !! readingId = Some r' ∧
    previousReading r' = Some previous ∧
    ((∃ pid p,
        priorApproved db readingId (flatId reading) pid p ∧
        (∀ qid q, priorApproved db readingId (flatId reading) qid q →
                  (spec_timestamp q ≤ spec_timestamp p)%Z) ∧
        (∀ v, spec_value p = Some v → previous = v) ∧
        (spec_value p = None →
         previous = nullish (configuredInitialReading db (flatId reading)) (Q2Qc 0)))
     ∨
     ((∀ pid p, ¬ priorApproved db readingId (flatId reading) pid p) ∧
      (∀ v, configuredInitialReading db (flatId reading) = Some v → previous = v) ∧
      (configuredInitialReading db (flatId reading) = None → previous = Q2Qc 0))).
Proof.
  intros Hr Hnz.
  exists (approvedRecord db now readingId corrected reading),
    (finalPreviousReading db readingId (flatId reading)).
  split; [by apply approveReading_lookup|].
  split; [reflexivity|].
  unfold finalPreviousReading.
  destruct (prev db readingId (flatId reading)) as [[pid p]|] eqn:Hprev.
  - left. exists pid, p.
    destruct (prev_Some _ _ _ _ _ Hprev) as [Hp Hmax].
    split; [exact Hp|]. split.
    + intros qid q Hq.
      pose proof (approvedKey_spec_timestamp (qid, q) (Hnz qid q Hq)) as Hkq.
      pose proof (approvedKey_spec_timestamp (pid, p) (Hnz pid p Hp)) as Hkp.
      simpl in Hkq, Hkp. rewrite <- Hkq, <- Hkp. by apply Hmax.
    + unfold spec_value. simpl.
      destruct (correctedReading p) as [v|]; simpl.
      * split; [by intros ? [= <-]|done].
      * destruct (ocrReading p) as [v|]; simpl.
        -- split; [by intros ? [= <-]|done].
        -- split; [done|]. intros _. reflexivity.
  - right. split; [by apply prev_None|]. simpl.
    destruct (configuredInitialReading db (flatId reading)) as [v|]; simpl.
    + split; [by intros ? [= <-]|done].
    + split; [done|reflexivity].
Qed.

(** On the example database the previous reading of the March approval is
    the 100 of February. *)
Lemma approveReading_previousReading_witness :
  readings Examples.billingDb !! "mar" = Some Examples.march ∧
  priorApproved Examples.billingDb "mar" "A-101" "feb" Examples.february ∧
  ∃ r',
    readings (approveReading 1742000000000 "mar" (Q2Qc 150) Examples.billingDb).1
      !! "mar" = Some r' ∧
    previousReading r' = Some (Q2Qc 100).
Proof.
  assert (Hfeb : priorApproved Examples.billingDb "mar" "A-101" "feb" Examples.february).
  { split; [reflexivity|]. split; [reflexivity|]. split; [reflexivity|].
    intros Heq. discriminate Heq. }
  assert (Honly : ∀ pid p, priorApproved Examples.billingDb "mar" "A-101" pid p →
                           p = Examples.february).
  { intros pid p (Hl & _ & Hst & Hne).
    destruct (decide (pid = "feb")) as [->|Hnf].
    - vm_compute in Hl. injection Hl as <-. reflexivity.
    - unfold Examples.billingDb in Hl. simpl in Hl.
      rewrite lookup_insert_ne in Hl by (intros Heq; by apply Hnf).
      rewrite lookup_singleton_ne in Hl by (intros Heq; by apply Hne).
      discriminate Hl. }
  split; [reflexivity|]. split; [exact Hfeb|].
  destruct (approveReading_previousReading 1742000000000 "mar" (Q2Qc 150)
              Examples.billingDb Examples.march eq_refl)
    as (r' & previous & Hl & Hp & [(pid & p & Hprior & _ & Hval & _)|(Hnone & _)]).
  - intros pid p Hp Hz. apply Honly in Hp. subst p. discriminate Hz.
  - exists r'. split; [exact Hl|]. rewrite Hp. f_equal.
    apply Honly in Hprior. subst p. apply Hval. reflexivity.
  - destruct (Hnone "feb" Examples.february Hfeb).
Defined.

(** ** The monthly upload limit ([C4]) *)

Section Upload.
Variable getFullYear : Z → Z.
Variable getMonth : Z → Z.
Variable toLocaleDateString : Z → string.

Local Abbreviation create :=
  (createReadingFromImage getFullYear getMonth toLocaleDateString).
Local Abbreviation conflict := (conflicting getFullYear getMonth).
Local Abbreviation uploads := (uploadsThisMonth getFullYear getMonth).
Local Abbreviation thisMonth := (getYearMonth getFullYear getMonth).

Lemma elem_of_uploadsThisMonth db fid now id r :
  (id, r) ∈ uploads db fid now ↔ conflict db fid (thisMonth now) id r.
Proof.
  unfold uploadsThisMonth, conflicting, effectiveStatus.
  rewrite !list_elem_of_filter, elem_of_map_to_list. simpl. tauto.
Qed.

Lemma createReadingFromImage_run now newId fid img tenant db :
  create now newId fid img tenant db =
    if bool_decide (0 < length (uploads db fid now))%nat then
      (db, inl (JsError (uploadLimitMessage
         (toLocaleDateString <$>
            (head (sortDesc createdKey (uploads db fid now))
               ≫= λ l, truthy (createdAt l.2))))))
    else
      (mkDb (<[newId := submittedRecord getFullYear getMonth now fid img tenant]>
               (readings db)) (flats db) (globalTariffDoc db),
       inr ()).
Proof.
  unfold createReadingFromImage, mbind, Firestore_bind, getReadingDocs.
  fold (uploads db fid now).
  case_bool_decide; [reflexivity|].
  unfold addDoc, submittedRecord. by destruct tenant.
Qed.

Lemma uploads_nil_iff db fid now :
  uploads db fid now = [] ↔ ∀ id r, ¬ conflict db fid (thisMonth now) id r.
Proof.
  split.
  - intros Hnil id r Hc. apply elem_of_uploadsThisMonth in Hc.
    rewrite Hnil in Hc. by apply elem_of_nil in Hc.
  - intros Hno. apply elem_of_nil_inv. intros [id r] Hin.
    apply elem_of_uploadsThisMonth in Hin. by apply (Hno id r).
Qed.

Lemma createReadingFromImage_blocked now newId fid img tenant db id r :
  conflict db fid (thisMonth now) id r →
  ∃ lid latest,
    conflict db fid (thisMonth now) lid latest ∧
    (∀ qid q, conflict db fid (thisMonth now) qid q →
              (createdKey (qid, q) ≤ createdKey (lid, latest))%Z) ∧
    create now newId fid img tenant db =
      (db, inl (JsError (uploadLimitMessage
                           (toLocaleDateString <$> truthy (createdAt latest))))).
Proof.
  intros Hc. rewrite createReadingFromImage_run.
  apply elem_of_uploadsThisMonth in Hc.
  destruct (head (sortDesc createdKey (uploads db fid now))) as [[lid latest]|] eqn:Hhd.
  - destruct (head_sortDesc _ _ _ Hhd) as [Hin Hmax].
    exists lid, latest. split; [by apply elem_of_uploadsThisMonth|].
    split.
    + intros qid q Hq. apply Hmax. by apply elem_of_uploadsThisMonth.
    + rewrite bool_decide_eq_true_2; [reflexivity|].
      destruct (uploads db fid now); [by apply elem_of_nil in Hc|simpl; lia].
  - apply head_sortDesc_None in Hhd. rewrite Hhd in Hc. by apply elem_of_nil in Hc.
Qed.

Lemma createReadingFromImage_free now newId fid img tenant db :
  (∀ id r, ¬ conflict db fid (thisMonth now) id r) →
  create now newId fid img tenant db =
    (mkDb (<[newId := submittedRecord getFullYear getMonth now fid img tenant]>
             (readings db)) (flats db) (globalTariffDoc db),
     inr ()).
Proof.
  intros Hno. rewrite createReadingFromImage_run.
  apply uploads_nil_iff in Hno. rewrite Hno.
  rewrite bool_decide_eq_false_2; [reflexivity|simpl; lia].
Qed.

Lemma conflict_dec now fid db :
  (∃ id r, conflict db fid (thisMonth now) id r) ∨
  (∀ id r, ¬ conflict db fid (thisMonth now) id r).
Proof.
  destruct (uploads db fid now) as [|[id r] l] eqn:Hu.
  - right. by apply uploads_nil_iff.
  - left. exists id, r. apply elem_of_uploadsThisMonth. rewrite Hu. by left.
Qed.

(** C4. Creating a reading fails exactly when the flat already has a reading
    that falls in the current month (by its stored [yearMonth], else by the
    month of its creation timestamp) and is not rejected.  It then changes
    nothing and throws the upload-limit error, which names the date of the
    latest such submission when that submission has a creation date.
    Otherwise a new reading with status pending is inserted. *)
Theorem createReadingFromImage_iff now newId fid img tenant db :
  ((∃ id r, conflict db fid (thisMonth now) id r)
     ↔ ∃ e, (create now newId fid img tenant db).2 = inl e) ∧
  ((∃ id r, conflict db fid (thisMonth now) id r) →
   (create now newId fid img tenant db).1 = db ∧
   ∃ lid latest,
     conflict db fid (thisMonth now) lid latest ∧
     (create now newId fid img tenant db).2 =
       inl (JsError (uploadLimitMessage
                       (toLocaleDateString <$> truthy (createdAt latest)))) ∧
     (∀ t, createdAt latest = Some t → t ≠ 0%Z → toLocaleDateString t ≠ "" →
        (create now newId fid img tenant db).2 =
          inl (JsError
                 ("Upload limit reached. You already have a pending/approved upload on "
                    +:+ toLocaleDateString t +:+ ". Try again next month.")))) ∧
  ((∀ id r, ¬ conflict db fid (thisMonth now) id r) →
   (create now newId fid img tenant db).2 = inr () ∧
   flats (create now newId fid img tenant db).1 = flats db ∧
   globalTariffDoc (create now newId fid img tenant db).1 = globalTariffDoc db ∧
   ∃ r',
     readings (create now newId fid img tenant db).1 = <[newId := r']> (readings db) ∧
     status r' = Some pending ∧
     flatId r' = fid ∧
     imageUrl r' = img ∧
     tenantReading r' = tenant ∧
     createdAt r' = Some now ∧
     yearMonth r' = Some (thisMonth now) ∧
     correctedReading r' = None ∧
     amount r' = None).
Proof.
  split; [|split].
  - split.
    + intros (id & r & Hc).
      destruct (createReadingFromImage_blocked now newId fid img tenant db id r Hc)
        as (lid & latest & _ & _ & ->).
      by eexists.
    + intros [e He].
      destruct (conflict_dec now fid db) as [Hc|Hno]; [exact Hc|].
      by rewrite (createReadingFromImage_free _ newId _ img tenant _ Hno) in He.
  - intros (id & r & Hc).
    destruct (createReadingFromImage_blocked now newId fid img tenant db id r Hc)
      as (lid & latest & Hl & _ & Hrun).
    rewrite Hrun. split; [reflexivity|].
    exists lid, latest. split; [exact Hl|]. split; [reflexivity|].
    intros t Ht Hnz Hne. simpl. rewrite Ht. simpl.
    rewrite bool_decide_eq_false_2 by done. simpl.
    by rewrite bool_decide_eq_false_2 by done.
  - intros Hno.
    rewrite (createReadingFromImage_free _ newId _ img tenant _ Hno). simpl.
    split; [reflexivity|]. split; [reflexivity|]. split; [reflexivity|].
    eexists. split; [reflexivity|]. simpl. done.
Qed.

End Upload.

Lemma billingDb_lookup id r :
  readings Examples.billingDb !! id = Some r →
  (id = "feb" ∧ r = Examples.february) ∨ (id = "mar" ∧ r = Examples.march).
Proof.
  intros Hl. unfold Examples.billingDb in Hl. simpl in Hl.
  destruct (decide (id = "feb")) as [->|Hnf].
  - left. rewrite lookup_insert_eq in Hl. by injection Hl as <-.
  - rewrite lookup_insert_ne in Hl by done.
    destruct (decide (id = "mar")) as [->|Hnm].
    + right. rewrite lookup_singleton_eq in Hl. by injection Hl as <-.
    + rewrite lookup_singleton_ne in Hl by done. discriminate Hl.
Qed.

(** On the example database, in UTC: a second upload for flat A-101 on 15
    March 2025 is refused with the date of the pending upload of 14 March; an
    upload on 15 April is stored as pending. *)
Lemma createReadingFromImage_iff_witness :
  conflicting UtcHost.getFullYear UtcHost.getMonth Examples.billingDb "A-101"
    (getYearMonth UtcHost.getFullYear UtcHost.getMonth 1741996800000)
    "mar" Examples.march ∧
  createReadingFromImage UtcHost.getFullYear UtcHost.getMonth
    UtcHost.toLocaleDateString 1741996800000 "new" "A-101" "img" None
    Examples.billingDb
  = (Examples.billingDb,
     inl (JsError "Upload limit reached. You already have a pending/approved upload on 3/14/2025. Try again next month.")) ∧
  (createReadingFromImage UtcHost.getFullYear UtcHost.getMonth
     UtcHost.toLocaleDateString 1744675200000 "new" "A-101" "img" None
     Examples.billingDb).2 = inr () ∧
  ∃ r',
    readings (createReadingFromImage UtcHost.getFullYear UtcHost.getMonth
                UtcHost.toLocaleDateString 1744675200000 "new" "A-101" "img" None
                Examples.billingDb).1 !! "new" = Some r' ∧
    status r' = Some pending ∧
    yearMonth r' = Some "2025-04".
Proof.
  assert (Hmar : conflicting UtcHost.getFullYear UtcHost.getMonth Examples.billingDb
                   "A-101"
                   (getYearMonth UtcHost.getFullYear UtcHost.getMonth 1741996800000)
                   "mar" Examples.march).
  { split; [reflexivity|]. split; [reflexivity|].
    split; [vm_compute; reflexivity|]. intros Heq. discriminate Heq. }
  assert (Hapr : ∀ id r,
            ¬ conflicting UtcHost.getFullYear UtcHost.getMonth Examples.billingDb
                "A-101"
                (getYearMonth UtcHost.getFullYear UtcHost.getMonth 1744675200000)
                id r).
  { intros id r (Hl & _ & Hb & _).
    apply billingDb_lookup in Hl as [[-> ->]|[-> ->]];
      vm_compute in Hb; discriminate Hb. }
  destruct (createReadingFromImage_iff UtcHost.getFullYear UtcHost.getMonth
              UtcHost.toLocaleDateString 1741996800000 "new" "A-101" "img" None
              Examples.billingDb) as (_ & Hblocked & _).
  destruct (createReadingFromImage_iff UtcHost.getFullYear UtcHost.getMonth
              UtcHost.toLocaleDateString 1744675200000 "new" "A-101" "img" None
              Examples.billingDb) as (_ & _ & Hfree).
  split; [exact Hmar|].
  split.
  - destruct Hblocked as (Hsame & lid & latest & Hc & _ & Hdate).
    { exists "mar", Examples.march. exact Hmar. }
    assert (Hlatest : latest = Examples.march).
    { destruct Hc as (Hl & _ & Hb & _).
      apply billingDb_lookup in Hl as [[-> ->]|[-> ->]]; [|reflexivity].
      vm_compute in Hb. discriminate Hb. }
    subst latest.
    specialize (Hdate 1741910400000%Z eq_refl).
    rewrite (surjective_pairing (createReadingFromImage _ _ _ _ _ _ _ _ _)).
    rewrite Hsame, Hdate.
    + reflexivity.
    + intros Heq. discriminate Heq.
    + vm_compute. intros Heq. discriminate Heq.
  - destruct (Hfree Hapr) as (Hok & _ & _ & r' & Hr & Hst & _ & _ & _ & _ & Hym & _).
    split; [exact Hok|].
    exists r'. split; [rewrite Hr; apply lookup_insert_eq|].
    split; [exact Hst|]. rewrite Hym. vm_compute. reflexivity.
Defined.

(** ** One active reading per flat and month ([C5]) *)

Section Invariant.
Variable getFullYear : Z → Z.
Variable getMonth : Z → Z.
Variable toLocaleDateString : Z → string.

Local Abbreviation conflict := (conflicting getFullYear getMonth).
Local Abbreviation invariant := (oneActivePerMonth getFullYear getMonth).
Local Abbreviation run := (runOp getFullYear getMonth toLocaleDateString).
Local Abbreviation thisMonth := (getYearMonth getFullYear getMonth).

(** An operation after which every active reading was active before keeps
    the invariant. *)
Lemma invariant_shrinks db db' :
  (∀ fid ym id r', conflict db' fid ym id r' → ∃ r, conflict db fid ym id r) →
  invariant db → invariant db'.
Proof.
  intros Hsub Hinv fid ym id1 r1 id2 r2 H1 H2.
  destruct (Hsub _ _ _ _ H1) as [r1' H1'].
  destruct (Hsub _ _ _ _ H2) as [r2' H2'].
  by apply (Hinv fid ym id1 r1' id2 r2').
Qed.

(** An update that keeps the flat and the month of its target, and whose
    target was active unless the update makes it rejected. *)
Lemma updateDoc_invariant readingId fields db :
  (∀ r, flatId (fields r) = flatId r) →
  (∀ r, yearMonth (fields r) = yearMonth r) →
  (∀ r, createdAt (fields r) = createdAt r) →
  (∀ r, readings db !! readingId = Some r →
        effectiveStatus (fields r) ≠ rejected → effectiveStatus r ≠ rejected) →
  invariant db → invariant (updateDoc readingId fields db).1.
Proof.
  intros Hflat Hym Hcr Hst.
  destruct (readings db !! readingId) as [r|] eqn:Hr.
  - rewrite (updateDoc_run _ _ _ _ Hr). simpl.
    apply invariant_shrinks.
    intros fid ym id r' (Hl & Hf & Hb & Hs). simpl in Hl.
    destruct (decide (id = readingId)) as [->|Hne].
    + rewrite lookup_insert_eq in Hl. injection Hl as <-.
      exists r. split; [exact Hr|]. split; [by rewrite <- Hflat|].
      split; [|by apply Hst].
      rewrite <- Hb. unfold bucket. by rewrite Hym, Hcr.
    + rewrite lookup_insert_ne in Hl by done. by exists r'.
  - by rewrite (updateDoc_missing _ _ _ Hr).
Qed.

Lemma rejectReading_invariant readingId reason db :
  invariant db → invariant (rejectReading readingId reason db).1.
Proof.
  apply updateDoc_invariant; done.
Qed.

Lemma reopenReading_invariant readingId reason db :
  (∀ r, readings db !! readingId = Some r → effectiveStatus r ≠ rejected) →
  invariant db → invariant (reopenReading readingId reason db).1.
Proof.
  intros Hguard. apply updateDoc_invariant; try done.
  intros r Hr _. by apply Hguard.
Qed.

Lemma approveReading_invariant now readingId corrected db :
  (∀ r, readings db !! readingId = Some r → effectiveStatus r ≠ rejected) →
  invariant db → invariant (approveReading now readingId corrected db).1.
Proof.
  intros Hguard Hinv.
  destruct (readings db !! readingId) as [reading|] eqn:Hr.
  - rewrite (approveReading_run _ _ _ _ _ Hr). simpl.
    revert Hinv. apply invariant_shrinks.
    intros fid ym id r' (Hl & Hf & Hb & Hs). simpl in Hl.
    destruct (decide (id = readingId)) as [->|Hne].
    + rewrite lookup_insert_eq in Hl. injection Hl as <-.
      exists reading. split; [exact Hr|]. split; [exact Hf|].
      split; [exact Hb|]. by apply Hguard.
    + rewrite lookup_insert_ne in Hl by done. by exists r'.
  - by rewrite (approveReading_missing _ _ _ _ Hr).
Qed.

Lemma createReadingFromImage_invariant now newId fid img tenant db :
  invariant db →
  invariant (createReadingFromImage getFullYear getMonth toLocaleDateString
               now newId fid img tenant db).1.
Proof.
  intros Hinv.
  destruct (conflict_dec getFullYear getMonth toLocaleDateString now fid db) as [(id & r & Hc)|Hno].
  - destruct (createReadingFromImage_blocked getFullYear getMonth toLocaleDateString
                now newId fid img tenant db id r Hc) as (lid & latest & _ & _ & ->).
    exact Hinv.
  - rewrite (createReadingFromImage_free getFullYear getMonth toLocaleDateString
               _ newId _ img tenant _ Hno). simpl.
    assert (Hnew : ∀ fid' ym id r',
              conflict (mkDb (<[newId := submittedRecord getFullYear getMonth now fid img tenant]>
                                (readings db)) (flats db) (globalTariffDoc db))
                fid' ym id r' →
              (id = newId ∧ fid' = fid ∧ ym = thisMonth now) ∨
              (id ≠ newId ∧ conflict db fid' ym id r')).
    { intros fid' ym id r' (Hl & Hf & Hb & Hs). simpl in Hl.
      destruct (decide (id = newId)) as [->|Hne].
      - left. rewrite lookup_insert_eq in Hl. injection Hl as <-.
        simpl in Hf. unfold bucket in Hb. simpl in Hb. by subst.
      - right. rewrite lookup_insert_ne in Hl by done. done. }
    intros fid' ym id1 r1 id2 r2 H1 H2.
    destruct (Hnew _ _ _ _ H1) as [(-> & -> & ->)|[Hne1 H1']];
      destruct (Hnew _ _ _ _ H2) as [(-> & E2 & E3)|[Hne2 H2']].
    + reflexivity.
    + by destruct (Hno id2 r2).
    + subst. by destruct (Hno id1 r1).
    + by apply (Hinv fid' ym id1 r1 id2 r2).
Qed.

Lemma runOp_invariant db op :
  respectsRejection db op → invariant db → invariant (run op db).1.
Proof.
  destruct op as [now newId fid img tenant|now readingId corrected
                  |readingId reason|readingId reason]; simpl; intros Hguard.
  - apply createReadingFromImage_invariant.
  - by apply approveReading_invariant.
  - apply rejectReading_invariant.
  - by apply reopenReading_invariant.
Qed.

(** C5, amended. Starting from a state with at most one non-rejected reading
    per flat and month, every state reached by creating, approving, rejecting
    and reopening readings has that property again, provided approval and
    reopening are not applied to a rejected reading. *)
Theorem oneActivePerMonth_reachable db db' :
  invariant db →
  reachable getFullYear getMonth toLocaleDateString respectsRejection db db' →
  invariant db'.
Proof.
  intros Hinv Hreach. induction Hreach as [db|db op db' Hguard _ IH]; [exact Hinv|].
  apply IH. by apply runOp_invariant.
Qed.

Lemma reachable_runOps guard ops db :
  guardedRun getFullYear getMonth toLocaleDateString guard ops db →
  reachable getFullYear getMonth toLocaleDateString guard db
    (runOps getFullYear getMonth toLocaleDateString ops db).
Proof.
  revert db. induction ops as [|op ops IH]; intros db; simpl.
  - intros _. apply reachable_refl.
  - intros [Hg Hrest]. apply (reachable_step _ _ _ _ db op); [exact Hg|].
    by apply IH.
Qed.

Lemma oneActivePerMonth_empty : invariant emptyDb.
Proof. intros fid ym id1 r1 id2 r2 (Hl & _). simpl in Hl. by rewrite lookup_empty in Hl. Qed.

End Invariant.

(** An upload, its rejection, a second upload in the same month, and the
    approval, reopening and second approval of that second upload, in UTC:
    no step touches a rejected reading, and the invariant holds at the end. *)
Lemma oneActivePerMonth_reachable_witness :
  oneActivePerMonth UtcHost.getFullYear UtcHost.getMonth emptyDb ∧
  reachable UtcHost.getFullYear UtcHost.getMonth UtcHost.toLocaleDateString
    respectsRejection emptyDb
    (runOps UtcHost.getFullYear UtcHost.getMonth UtcHost.toLocaleDateString
       Examples.resubmittedLifecycle emptyDb) ∧
  oneActivePerMonth UtcHost.getFullYear UtcHost.getMonth
    (runOps UtcHost.getFullYear UtcHost.getMonth UtcHost.toLocaleDateString
       Examples.resubmittedLifecycle emptyDb).
Proof.
  assert (Hreach :
    reachable UtcHost.getFullYear UtcHost.getMonth UtcHost.toLocaleDateString
      respectsRejection emptyDb
      (runOps UtcHost.getFullYear UtcHost.getMonth UtcHost.toLocaleDateString
         Examples.resubmittedLifecycle emptyDb)).
  { apply reachable_runOps.
    repeat (split; [try exact I;
                    intros r Hl; vm_compute in Hl; injection Hl as <-;
                    intros Heq; discriminate Heq|]).
    exact I. }
  split; [exact (oneActivePerMonth_empty UtcHost.getFullYear UtcHost.getMonth)|].
  split; [exact Hreach|].
  exact (oneActivePerMonth_reachable UtcHost.getFullYear UtcHost.getMonth
           UtcHost.toLocaleDateString emptyDb _
           (oneActivePerMonth_empty UtcHost.getFullYear UtcHost.getMonth)
           Hreach).
Defined.

(** C5 as stated fails: from the empty database, upload "a", reject it,
    upload "b" in the same month and then approve "a" (which
    [approveReading] does for a rejected reading as for any other).  Every id
    was fresh when it was generated, and the flat ends with an approved and a
    pending reading for March 2025. *)
Lemma oneActivePerMonth_broken_by_approval :
  oneActivePerMonth UtcHost.getFullYear UtcHost.getMonth emptyDb ∧
  reachable UtcHost.getFullYear UtcHost.getMonth UtcHost.toLocaleDateString
    freshId emptyDb
    (runOps UtcHost.getFullYear UtcHost.getMonth UtcHost.toLocaleDateString
       Examples.approvedAfterRejection emptyDb) ∧
  ¬ oneActivePerMonth UtcHost.getFullYear UtcHost.getMonth
      (runOps UtcHost.getFullYear UtcHost.getMonth UtcHost.toLocaleDateString
         Examples.approvedAfterRejection emptyDb).
Proof.
  split; [exact (oneActivePerMonth_empty UtcHost.getFullYear UtcHost.getMonth)|].
  split.
  - apply reachable_runOps. vm_compute. repeat split.
  - intros Hinv.
    assert (Ha : ∃ ra,
      conflicting UtcHost.getFullYear UtcHost.getMonth
        (runOps UtcHost.getFullYear UtcHost.getMonth UtcHost.toLocaleDateString
           Examples.approvedAfterRejection emptyDb) "A-101" "2025-03" "a" ra ∧
      status ra = Some approved).
    { eexists. split; [split; [vm_compute; reflexivity|]|].
      - split; [reflexivity|]. split; [vm_compute; reflexivity|].
        intros Heq. discriminate Heq.
      - reflexivity. }
    assert (Hb : ∃ rb,
      conflicting UtcHost.getFullYear UtcHost.getMonth
        (runOps UtcHost.getFullYear UtcHost.getMonth UtcHost.toLocaleDateString
           Examples.approvedAfterRejection emptyDb) "A-101" "2025-03" "b" rb ∧
      status rb = Some pending).
    { eexists. split; [split; [vm_compute; reflexivity|]|].
      - split; [reflexivity|]. split; [vm_compute; reflexivity|].
        intros Heq. discriminate Heq.
      - reflexivity. }
    destruct Ha as (ra & Ha & _), Hb as (rb & Hb & _).
    pose proof (Hinv "A-101" "2025-03" "a" ra "b" rb Ha Hb) as Heq.
    discriminate Heq.
Qed.

(** Reopening the rejected upload instead of approving it has the same
    effect: two pending readings for March 2025. *)
Example oneActivePerMonth_broken_by_reopening :
  ¬ oneActivePerMonth UtcHost.getFullYear UtcHost.getMonth
      (runOps UtcHost.getFullYear UtcHost.getMonth UtcHost.toLocaleDateString
         Examples.reopenedAfterRejection emptyDb).
Proof.
  intros Hinv.
  assert (Ha : ∃ ra,
    conflicting UtcHost.getFullYear UtcHost.getMonth
      (runOps UtcHost.getFullYear UtcHost.getMonth UtcHost.toLocaleDateString
         Examples.reopenedAfterRejection emptyDb) "A-101" "2025-03" "a" ra).
  { eexists. split; [vm_compute; reflexivity|].
    split; [reflexivity|]. split; [vm_compute; reflexivity|].
    intros Heq. discriminate Heq. }
  assert (Hb : ∃ rb,
    conflicting UtcHost.getFullYear UtcHost.getMonth
      (runOps UtcHost.getFullYear UtcHost.getMonth UtcHost.toLocaleDateString
         Examples.reopenedAfterRejection emptyDb) "A-101" "2025-03" "b" rb).
  { eexists. split; [vm_compute; reflexivity|].
    split; [reflexivity|]. split; [vm_compute; reflexivity|].
    intros Heq. discriminate Heq. }
  destruct Ha as (ra & Ha), Hb as (rb & Hb).
  pose proof (Hinv "A-101" "2025-03" "a" ra "b" rb Ha Hb) as Heq.
  discriminate Heq.
Qed.

(** ** The examples in double precision *)

(** The example of C1 is exact in double precision as well: 2.3 is not
    representable, yet the three roundings end at 1112.5. *)
Example bill_binary64 :
  Binary64.bill 150 100 (23 / 10) 7.5 250 = (50%float, 1112.5%float).
Proof. vm_compute. reflexivity. Qed.

(** The card's total for the same reading is one unit in the last place
    below 887.5. *)
Example grandTotal_binary64 :
  PrimFloat.eqb (Binary64.grandTotal 50 (23 / 10) 7.5) 887.5 = false ∧
  PrimFloat.ltb (Binary64.grandTotal 50 (23 / 10) 7.5) 1112.5 = true.
Proof. split; vm_compute; reflexivity. Qed.

(** * Further properties of the code *)

(** ** Sorting, continued *)

Section SortedDesc.
Context {A : Type} (key : A → Z).

Lemma insertDesc_sorted x l :
  StronglySorted (λ a b, (key b ≤ key a)%Z) l →
  StronglySorted (λ a b, (key b ≤ key a)%Z) (insertDesc key x l).
Proof.
  induction l as [|y ys IH]; simpl; intros Hs.
  - repeat constructor.
  - apply StronglySorted_inv in Hs as [Hys Hy].
    case_bool_decide as Hle.
    + constructor; [by constructor|].
      constructor; [exact Hle|].
      eapply Forall_impl; [exact Hy|]. simpl. intros z Hz. lia.
    + constructor; [by apply IH|].
      rewrite insertDesc_Permutation. constructor; [lia|exact Hy].
Qed.

Lemma sortDesc_sorted l :
  StronglySorted (λ a b, (key b ≤ key a)%Z) (sortDesc key l).
Proof.
  induction l as [|x xs IH]; simpl; [constructor|].
  by apply insertDesc_sorted.
Qed.

Lemma elem_of_sortDesc x l : x ∈ sortDesc key l ↔ x ∈ l.
Proof. by rewrite sortDesc_Permutation. Qed.

Lemma NoDup_sortDesc l : NoDup (sortDesc key l) ↔ NoDup l.
Proof. by rewrite sortDesc_Permutation. Qed.

(** The sort is stable: what it does to the elements that satisfy [P] is
    what it does to the list of those elements. *)
Lemma insertDesc_filter (P : A → Prop) `{∀ x, Decision (P x)} x l :
  StronglySorted (λ a b, (key b ≤ key a)%Z) l →
  filter P (insertDesc key x l) =
    if decide (P x) then insertDesc key x (filter P l) else filter P l.
Proof.
  induction l as [|y ys IH]; simpl; intros Hs.
  - rewrite filter_cons, filter_nil. by destruct (decide (P x)).
  - apply StronglySorted_inv in Hs as [Hys Hy].
    case_bool_decide as Hle.
    + rewrite !filter_cons. destruct (decide (P x)) as [Hx|Hx]; [|done].
      destruct (decide (P y)) as [Hpy|Hpy].
      * simpl. by rewrite bool_decide_eq_true_2.
      * assert (Hall : Forall (λ z, (key z ≤ key x)%Z) (filter P ys)).
        { apply Forall_forall. intros z [_ Hz]%list_elem_of_filter.
          rewrite Forall_forall in Hy. specialize (Hy z Hz). simpl in Hy. lia. }
        destruct (filter P ys) as [|z zs]; [done|].
        simpl. apply Forall_cons in Hall as [Hz _].
        by rewrite bool_decide_eq_true_2.
    + rewrite !filter_cons, IH by done.
      destruct (decide (P y)) as [Hpy|Hpy]; destruct (decide (P x)) as [Hx|Hx];
        try done.
      simpl. by rewrite bool_decide_eq_false_2.
Qed.

Lemma sortDesc_filter (P : A → Prop) `{∀ x, Decision (P x)} l :
  filter P (sortDesc key l) = sortDesc key (filter P l).
Proof.
  induction l as [|x xs IH]; simpl; [done|].
  rewrite insertDesc_filter by apply sortDesc_sorted.
  rewrite filter_cons. destruct (decide (P x)); simpl; by rewrite IH.
Qed.
End SortedDesc.

(** ** The list queries *)

Lemma NoDup_sorted_docs (Q : string * Reading → Prop) `{∀ d, Decision (Q d)}
    (key : string * Reading → Z) db :
  NoDup (sortDesc key (filter Q (map_to_list (readings db)))).*1.
Proof.
  rewrite sortDesc_Permutation.
  apply NoDup_fmap_fst; [|apply NoDup_filter, NoDup_map_to_list].
  intros id r1 r2 [_ H1%elem_of_map_to_list]%list_elem_of_filter
    [_ H2%elem_of_map_to_list]%list_elem_of_filter.
  congruence.
Qed.

Lemma listed_getTenantReadings fid db :
  listed (getTenantReadings fid) db =
    sortDesc createdKey
      (filter (λ d, whereFlatId fid d.2) (map_to_list (readings db))).
Proof. reflexivity. Qed.

Lemma listed_getPendingReadings db :
  listed getPendingReadings db =
    sortDesc createdKey
      (filter (λ d, whereStatus pending d.2) (map_to_list (readings db))).
Proof. reflexivity. Qed.

Lemma listed_getApprovedReadings ofid db :
  listed (getApprovedReadings ofid) db =
    sortDesc approvedKey
      (filter (λ d, whereStatus approved d.2 ∧ optionalFlat ofid d.2)
         (map_to_list (readings db))).
Proof. reflexivity. Qed.

Lemma listed_getRejectedReadings ofid db :
  listed (getRejectedReadings ofid) db =
    sortDesc createdKey
      (filter (λ d, whereStatus rejected d.2 ∧ optionalFlat ofid d.2)
         (map_to_list (readings db))).
Proof. reflexivity. Qed.

Lemma elem_of_getTenantReadings fid db id r :
  (id, r) ∈ listed (getTenantReadings fid) db
    ↔ readings db !! id = Some r ∧ flatId r = fid.
Proof.
  rewrite listed_getTenantReadings, elem_of_sortDesc, list_elem_of_filter,
    elem_of_map_to_list.
  unfold whereFlatId. simpl. tauto.
Qed.

Lemma elem_of_getPendingReadings db id r :
  (id, r) ∈ listed getPendingReadings db
    ↔ readings db !! id = Some r ∧ status r = Some pending.
Proof.
  rewrite listed_getPendingReadings, elem_of_sortDesc, list_elem_of_filter,
    elem_of_map_to_list.
  unfold whereStatus. simpl. tauto.
Qed.

Lemma elem_of_getApprovedReadings ofid db id r :
  (id, r) ∈ listed (getApprovedReadings ofid) db
    ↔ readings db !! id = Some r ∧ status r = Some approved ∧ optionalFlat ofid r.
Proof.
  rewrite listed_getApprovedReadings, elem_of_sortDesc, list_elem_of_filter,
    elem_of_map_to_list.
  unfold whereStatus. simpl. tauto.
Qed.

Lemma elem_of_getRejectedReadings ofid db id r :
  (id, r) ∈ listed (getRejectedReadings ofid) db
    ↔ readings db !! id = Some r ∧ status r = Some rejected ∧ optionalFlat ofid r.
Proof.
  rewrite listed_getRejectedReadings, elem_of_sortDesc, list_elem_of_filter,
    elem_of_map_to_list.
  unfold whereStatus. simpl. tauto.
Qed.

(** X1. Each of the four list queries leaves the database as it is and
    returns exactly the documents that match its conditions, every document
    once, newest first: by creation time for the readings of a flat, the
    pending and the rejected readings, by approval time (creation time when
    there is none) for the approved ones. *)
Theorem list_queries_sound db fid ofid :
  getTenantReadings fid db = (db, inr (listed (getTenantReadings fid) db)) ∧
  getPendingReadings db = (db, inr (listed getPendingReadings db)) ∧
  getApprovedReadings ofid db = (db, inr (listed (getApprovedReadings ofid) db)) ∧
  getRejectedReadings ofid db = (db, inr (listed (getRejectedReadings ofid) db)) ∧
  (∀ id r, (id, r) ∈ listed (getTenantReadings fid) db
             ↔ readings db !! id = Some r ∧ flatId r = fid) ∧
  (∀ id r, (id, r) ∈ listed getPendingReadings db
             ↔ readings db !! id = Some r ∧ status r = Some pending) ∧
  (∀ id r, (id, r) ∈ listed (getApprovedReadings ofid) db
             ↔ readings db !! id = Some r ∧ status r = Some approved ∧
               optionalFlat ofid r) ∧
  (∀ id r, (id, r) ∈ listed (getRejectedReadings ofid) db
             ↔ readings db !! id = Some r ∧ status r = Some rejected ∧
               optionalFlat ofid r) ∧
  NoDup (listed (getTenantReadings fid) db).*1 ∧
  NoDup (listed getPendingReadings db).*1 ∧
  NoDup (listed (getApprovedReadings ofid) db).*1 ∧
  NoDup (listed (getRejectedReadings ofid) db).*1 ∧
  StronglySorted (λ a b, (createdKey b ≤ createdKey a)%Z)
    (listed (getTenantReadings fid) db) ∧
  StronglySorted (λ a b, (createdKey b ≤ createdKey a)%Z)
    (listed getPendingReadings db) ∧
  StronglySorted (λ a b, (approvedKey b ≤ approvedKey a)%Z)
    (listed (getApprovedReadings ofid) db) ∧
  StronglySorted (λ a b, (createdKey b ≤ createdKey a)%Z)
    (listed (getRejectedReadings ofid) db).
Proof.
  do 4 (split; [reflexivity|]).
  split; [intros id r; apply elem_of_getTenantReadings|].
  split; [intros id r; apply elem_of_getPendingReadings|].
  split; [intros id r; apply elem_of_getApprovedReadings|].
  split; [intros id r; apply elem_of_getRejectedReadings|].
  rewrite listed_getTenantReadings, listed_getPendingReadings,
    listed_getApprovedReadings, listed_getRejectedReadings.
  do 4 (split; [apply NoDup_sorted_docs|]).
  do 3 (split; [apply sortDesc_sorted|]).
  apply sortDesc_sorted.
Qed.

Lemma optionalFlat_falsy r : optionalFlat None r ∧ optionalFlat (Some "") r.
Proof. by split. Qed.

Lemma optionalFlat_truthy f r : f ≠ "" → optionalFlat (Some f) r ↔ flatId r = f.
Proof.
  intros Hf. unfold optionalFlat, truthyString.
  by rewrite bool_decide_eq_false_2.
Qed.

(** X2. The optional flat argument of [getApprovedReadings] and
    [getRejectedReadings]: without it, and also with the empty string, the
    readings of all flats are listed; with a flat id the result is the list
    of all flats cut down to that flat, in the same order. *)
Theorem optional_flat_filter f :
  getApprovedReadings (Some "") = getApprovedReadings None ∧
  getRejectedReadings (Some "") = getRejectedReadings None ∧
  (f ≠ "" →
   ∀ db,
     listed (getApprovedReadings (Some f)) db
       = filter (λ d, flatId d.2 = f) (listed (getApprovedReadings None) db) ∧
     listed (getRejectedReadings (Some f)) db
       = filter (λ d, flatId d.2 = f) (listed (getRejectedReadings None) db)).
Proof.
  split; [reflexivity|]. split; [reflexivity|].
  intros Hf db.
  rewrite !listed_getApprovedReadings, !listed_getRejectedReadings.
  rewrite !sortDesc_filter, !list_filter_filter.
  split; f_equal; apply list_filter_iff; intros [id r]; simpl;
    rewrite (optionalFlat_truthy f r Hf); unfold optionalFlat, whereFlatId; simpl;
    tauto.
Qed.

(** ** How the operations on readings compose *)

Lemma rejectReading_lookup readingId reason db r :
  readings db !! readingId = Some r →
  ∃ r', readings (rejectReading readingId reason db).1 !! readingId = Some r' ∧
        (rejectReading readingId reason db).2 = inr () ∧
        status r' = Some rejected ∧
        rejectionReason r' = reason ∧
        flatId r' = flatId r ∧ yearMonth r' = yearMonth r ∧
        createdAt r' = createdAt r.
Proof.
  intros Hr. unfold rejectReading. rewrite (updateDoc_run _ _ _ _ Hr). simpl.
  eexists. split; [apply lookup_insert_eq|]. simpl. by destruct reason.
Qed.

Lemma updateDoc_lookup_ne readingId fields db other :
  other ≠ readingId →
  readings (updateDoc readingId fields db).1 !! other = readings db !! other.
Proof.
  intros Hne. unfold updateDoc.
  destruct (readings db !! readingId); simpl; [|done].
  by apply lookup_insert_ne.
Qed.

Lemma updateDoc_frame readingId fields db :
  flats (updateDoc readingId fields db).1 = flats db ∧
  globalTariffDoc (updateDoc readingId fields db).1 = globalTariffDoc db ∧
  dom (readings (updateDoc readingId fields db).1) = dom (readings db).
Proof.
  unfold updateDoc. destruct (readings db !! readingId) as [r|] eqn:Hr; simpl; [|done].
  split; [done|]. split; [done|].
  rewrite dom_insert_L. apply elem_of_dom_2 in Hr.
  apply (anti_symm (⊆)); [|apply union_subseteq_r].
  apply union_subseteq. split; [by apply singleton_subseteq_l|done].
Qed.

Section Compose.
Variable getFullYear : Z → Z.
Variable getMonth : Z → Z.
Variable toLocaleDateString : Z → string.

Local Abbreviation create :=
  (createReadingFromImage getFullYear getMonth toLocaleDateString).
Local Abbreviation conflict := (conflicting getFullYear getMonth).
Local Abbreviation invariant := (oneActivePerMonth getFullYear getMonth).
Local Abbreviation run := (runOp getFullYear getMonth toLocaleDateString).
Local Abbreviation thisMonth := (getYearMonth getFullYear getMonth).
Local Abbreviation submitted := (submittedRecord getFullYear getMonth).

Lemma create_lookup_ne now newId fid img tenant db other :
  other ≠ newId →
  readings (create now newId fid img tenant db).1 !! other = readings db !! other.
Proof.
  intros Hne. rewrite createReadingFromImage_run.
  case_bool_decide; simpl; [done|]. by apply lookup_insert_ne.
Qed.

Lemma create_frame now newId fid img tenant db :
  flats (create now newId fid img tenant db).1 = flats db ∧
  globalTariffDoc (create now newId fid img tenant db).1 = globalTariffDoc db ∧
  dom (readings db) ⊆ dom (readings (create now newId fid img tenant db).1).
Proof.
  rewrite createReadingFromImage_run. case_bool_decide; simpl; [done|].
  split; [done|]. split; [done|]. rewrite dom_insert_L. apply union_subseteq_r.
Qed.

Lemma approveReading_frame now readingId corrected db :
  flats (approveReading now readingId corrected db).1 = flats db ∧
  globalTariffDoc (approveReading now readingId corrected db).1 = globalTariffDoc db ∧
  dom (readings (approveReading now readingId corrected db).1) = dom (readings db).
Proof.
  destruct (readings db !! readingId) as [reading|] eqn:Hr.
  - rewrite (approveReading_run _ _ _ _ _ Hr). simpl.
    split; [done|]. split; [done|].
    rewrite dom_insert_L. apply elem_of_dom_2 in Hr.
    apply (anti_symm (⊆)); [|apply union_subseteq_r].
    apply union_subseteq. split; [by apply singleton_subseteq_l|done].
  - by rewrite (approveReading_missing _ _ _ _ Hr).
Qed.

(** X3. An operation on readings writes at most one document: every other
    reading, the flats and the settings document are as before, and no
    reading is ever removed. *)
Theorem operations_write_one_document op db :
  (∀ other, other ≠ target op →
            readings (run op db).1 !! other = readings db !! other) ∧
  flats (run op db).1 = flats db ∧
  globalTariffDoc (run op db).1 = globalTariffDoc db ∧
  dom (readings db) ⊆ dom (readings (run op db).1).
Proof.
  destruct op as [now newId fid img tenant|now readingId corrected
                  |readingId reason|readingId reason]; simpl.
  - split; [intros other; apply create_lookup_ne|apply create_frame].
  - split; [intros other; apply approveReading_lookup_ne|].
    destruct (approveReading_frame now readingId corrected db) as (Hf & Hs & ->).
    done.
  - split; [intros other; apply updateDoc_lookup_ne|].
    unfold rejectReading.
    destruct (updateDoc_frame readingId
      (λ r, mkReading (flatId r) (imageUrl r) (ocrReading r) (ocrConfidence r)
              (tenantReading r) (correctedReading r) (previousReading r)
              (unitsUsed r) (amount r) (Some rejected) (createdAt r) (approvedAt r)
              (yearMonth r) (tariffAtApproval r) (unitFactorAtApproval r)
              (nullishOpt reason None) (reopenReason r)) db) as (Hf & Hs & ->).
    done.
  - split; [intros other; apply updateDoc_lookup_ne|].
    unfold reopenReading.
    destruct (updateDoc_frame readingId
      (λ r, mkReading (flatId r) (imageUrl r) (ocrReading r) (ocrConfidence r)
              (tenantReading r) (correctedReading r) (previousReading r)
              None None (Some pending) (createdAt r) None
              (yearMonth r) None (unitFactorAtApproval r)
              None (nullishOpt reason None)) db) as (Hf & Hs & ->).
    done.
Qed.

(** X4. Rejecting the reading that blocks a flat's month frees the month:
    in a state with at most one non-rejected reading per flat and month, an
    upload that the reading [id] blocks goes through once [id] is
    rejected. *)
Theorem reject_then_upload now newId fid img tenant readingId reason db r :
  invariant db →
  conflict db fid (thisMonth now) readingId r →
  (create now newId fid img tenant db).2 =
    inl (JsError (uploadLimitMessage
                    (toLocaleDateString <$> truthy (createdAt r)))) ∧
  (create now newId fid img tenant (rejectReading readingId reason db).1).2 = inr () ∧
  readings (create now newId fid img tenant (rejectReading readingId reason db).1).1
    !! newId = Some (submitted now fid img tenant).
Proof.
  intros Hinv Hc. split.
  - destruct (createReadingFromImage_blocked getFullYear getMonth toLocaleDateString
                now newId fid img tenant db readingId r Hc)
      as (lid & latest & Hl & _ & ->).
    pose proof (Hinv _ _ _ _ _ _ Hl Hc) as ->.
    destruct Hl as (Hl & _), Hc as (Hr & _). rewrite Hl in Hr. by injection Hr as ->.
  - assert (Hfree : ∀ id' r', ¬ conflict (rejectReading readingId reason db).1 fid
                                  (thisMonth now) id' r').
    { intros id' r' (Hl' & Hf' & Hb' & Hs').
      destruct (decide (id' = readingId)) as [->|Hne].
      - destruct Hc as (Hr & _).
        destruct (rejectReading_lookup readingId reason db r Hr)
          as (r2 & Hl2 & _ & Hst & _).
        rewrite Hl2 in Hl'. injection Hl' as <-.
        apply Hs'. unfold effectiveStatus. by rewrite Hst.
      - unfold rejectReading in Hl'. rewrite updateDoc_lookup_ne in Hl' by done.
        apply Hne. by apply (Hinv fid (thisMonth now) id' r' readingId r). }
    rewrite (createReadingFromImage_free getFullYear getMonth toLocaleDateString
               _ newId _ img tenant _ Hfree). simpl.
    split; [done|]. apply lookup_insert_eq.
Qed.

(** X5. After an upload has gone through, every further upload for the same
    flat in the same month is refused, changes nothing, and its message names
    the date of the first upload. *)
Theorem second_upload_refused now now' newId newId' fid img img' tenant tenant' db :
  (∀ id r, ¬ conflict db fid (thisMonth now) id r) →
  thisMonth now' = thisMonth now →
  (create now newId fid img tenant db).2 = inr () ∧
  create now' newId' fid img' tenant' (create now newId fid img tenant db).1 =
    ((create now newId fid img tenant db).1,
     inl (JsError (uploadLimitMessage
                     (toLocaleDateString <$> truthy (Some now))))).
Proof.
  intros Hfree Hmonth.
  rewrite (createReadingFromImage_free getFullYear getMonth toLocaleDateString
             _ newId _ img tenant _ Hfree). simpl.
  split; [done|].
  set (db1 := mkDb (<[newId := submitted now fid img tenant]> (readings db))
                (flats db) (globalTariffDoc db)).
  assert (Hnew : conflict db1 fid (thisMonth now') newId (submitted now fid img tenant)).
  { split; [apply lookup_insert_eq|]. split; [done|]. split; [by rewrite Hmonth|done]. }
  destruct (createReadingFromImage_blocked getFullYear getMonth toLocaleDateString
              now' newId' fid img' tenant' db1 newId _ Hnew)
    as (lid & latest & (Hl & Hf & Hb & Hs) & _ & ->).
  destruct (decide (lid = newId)) as [->|Hne].
  - simpl in Hl. rewrite lookup_insert_eq in Hl. by injection Hl as <-.
  - simpl in Hl. rewrite lookup_insert_ne in Hl by done.
    destruct (Hfree lid latest). rewrite <- Hmonth. done.
Qed.

End Compose.

(** ** Successive approvals *)

Section SortUnique.
Context {A : Type} (key : A → Z).

(** With pairwise different keys the sorted list does not depend on the
    order of the input. *)
Lemma sortDesc_Permutation_eq l l' :
  l ≡ₚ l' →
  (∀ x y, x ∈ l → y ∈ l → key x = key y → x = y) →
  sortDesc key l = sortDesc key l'.
Proof.
  intros Hp Hinj.
  apply (StronglySorted_unique_strong (λ a b, (key b ≤ key a)%Z)).
  - intros x y Hx Hy H1 H2. simpl in H1, H2.
    apply elem_of_sortDesc in Hx. apply elem_of_sortDesc in Hy.
    rewrite <- Hp in Hy.
    apply Hinj; [exact Hx|exact Hy|lia].
  - apply sortDesc_sorted.
  - apply sortDesc_sorted.
  - by rewrite !sortDesc_Permutation.
Qed.
End SortUnique.

Lemma NoDup_prevList db readingId fid : NoDup (prevList db readingId fid).
Proof. unfold prevList. apply NoDup_filter, NoDup_filter, NoDup_map_to_list. Qed.

Lemma currentTariff_ext db db' :
  globalTariffDoc db' = globalTariffDoc db → currentTariff db' = currentTariff db.
Proof.
  intros H. unfold currentTariff, getGlobalTariff, mbind, Firestore_bind, getSettingsDoc.
  cbn [fst snd]. rewrite H. by destruct (globalTariffDoc db).
Qed.

Lemma currentMinimumPrice_ext db db' :
  globalTariffDoc db' = globalTariffDoc db →
  currentMinimumPrice db' = currentMinimumPrice db.
Proof.
  intros H. unfold currentMinimumPrice, getMinimumPrice, mbind, Firestore_bind,
    getSettingsDoc.
  cbn [fst snd]. rewrite H. by destruct (globalTariffDoc db).
Qed.

Lemma currentUnitFactor_ext db db' :
  globalTariffDoc db' = globalTariffDoc db →
  currentUnitFactor db' = currentUnitFactor db.
Proof.
  intros H. unfold currentUnitFactor, getUnitFactor, mbind, Firestore_bind,
    getSettingsDoc.
  cbn [fst snd]. rewrite H. by destruct (globalTariffDoc db).
Qed.

Lemma configuredInitialReading_ext db db' fid :
  flats db' = flats db →
  configuredInitialReading db' fid = configuredInitialReading db fid.
Proof.
  intros H. unfold configuredInitialReading, getFlatByFlatId. simpl. by rewrite H.
Qed.

(** Rewriting the reading that is being approved does not change the
    previous reading that its approval finds. *)
Lemma finalPreviousReading_rewritten db readingId fid x :
  distinctApprovalTimes db readingId fid →
  finalPreviousReading
    (mkDb (<[readingId := x]> (readings db)) (flats db) (globalTariffDoc db))
    readingId fid
  = finalPreviousReading db readingId fid.
Proof.
  intros Hdist. unfold finalPreviousReading, prev.
  rewrite (configuredInitialReading_ext db
             (mkDb (<[readingId := x]> (readings db)) (flats db) (globalTariffDoc db))
             fid eq_refl).
  rewrite (sortDesc_Permutation_eq approvedKey
             (prevList (mkDb (<[readingId := x]> (readings db)) (flats db)
                          (globalTariffDoc db)) readingId fid)
             (prevList db readingId fid)); [done| |].
  - apply NoDup_Permutation; [apply NoDup_prevList..|].
    intros [pid p]. rewrite !elem_of_prevList. unfold priorApproved. simpl.
    split; intros (Hl & Hf & Hs & Hne); (split; [|done]).
    + by rewrite lookup_insert_ne in Hl.
    + by rewrite lookup_insert_ne.
  - intros [pid p] [qid q] Hp%elem_of_prevList Hq%elem_of_prevList Hk.
    assert (Hp' : priorApproved db readingId fid pid p).
    { destruct Hp as (Hl & Hrest). simpl in Hl.
      rewrite lookup_insert_ne in Hl by (intros ->; by destruct Hrest as (_ & _ & ?)).
      by split. }
    assert (Hq' : priorApproved db readingId fid qid q).
    { destruct Hq as (Hl & Hrest). simpl in Hl.
      rewrite lookup_insert_ne in Hl by (intros ->; by destruct Hrest as (_ & _ & ?)).
      by split. }
    pose proof (Hdist _ _ _ _ Hp' Hq' Hk) as ->.
    destruct Hp' as (Hlp & _), Hq' as (Hlq & _). congruence.
Qed.

(** X6. The last approval wins: approving a reading a second time, with
    whatever value, leaves exactly the state and result that the second
    approval alone would have left.  The reading itself never counts as its
    own previous reading.  (The other approved readings of the flat have
    pairwise different approval times.) *)
Theorem last_approval_wins now1 now2 readingId c1 c2 db reading :
  readings db !! readingId = Some reading →
  distinctApprovalTimes db readingId (flatId reading) →
  approveReading now2 readingId c2 (approveReading now1 readingId c1 db).1
    = approveReading now2 readingId c2 db.
Proof.
  intros Hr Hdist.
  rewrite (approveReading_run now1 _ c1 _ _ Hr). simpl.
  rewrite (approveReading_run now2 _ c2 db _ Hr).
  rewrite (approveReading_run now2 readingId c2 _
             (approvedRecord db now1 readingId c1 reading)
             (lookup_insert_eq _ _ _)).
  simpl. rewrite insert_insert_eq. do 2 f_equal. f_equal.
  set (x := approvedRecord db now1 readingId c1 reading).
  set (db1 := mkDb (<[readingId := x]> (readings db)) (flats db) (globalTariffDoc db)).
  unfold approvedRecord at 1.
  change (flatId x) with (flatId reading).
  rewrite (currentTariff_ext db db1 eq_refl), (currentUnitFactor_ext db db1 eq_refl),
    (currentMinimumPrice_ext db db1 eq_refl).
  unfold db1.
  rewrite (finalPreviousReading_rewritten db readingId (flatId reading) x Hdist).
  reflexivity.
Qed.

(** X7. Bills chain: once reading [a] is approved at a time later than
    every other approved reading of the flat, the next approval of another
    reading [b] of that flat takes the corrected value of [a] as its previous
    reading, and bills the difference. *)
Theorem next_approval_continues now now' idA idB cA cB db rA rB :
  readings db !! idA = Some rA →
  readings db !! idB = Some rB →
  idA ≠ idB →
  flatId rA = flatId rB →
  now ≠ 0%Z →
  (∀ pid p, priorApproved db idB (flatId rB) pid p → pid ≠ idA →
            (approvedKey (pid, p) < now)%Z) →
  ∃ r',
    readings (approveReading now' idB cB (approveReading now idA cA db).1).1 !! idB
      = Some r' ∧
    previousReading r' = Some cA ∧
    unitsUsed r' = Some (spec_max (cB - cA) (Q2Qc 0)).
Proof.
  intros HA HB Hne Hflat Hnow Hlater.
  set (recA := approvedRecord db now idA cA rA).
  set (db1 := (approveReading now idA cA db).1).
  assert (HA1 : readings db1 !! idA = Some recA) by by apply approveReading_lookup.
  assert (HB1 : readings db1 !! idB = Some rB).
  { unfold db1. rewrite approveReading_lookup_ne by done. exact HB. }
  assert (Hprior : priorApproved db1 idB (flatId rB) idA recA).
  { split; [exact HA1|]. split; [exact Hflat|]. split; [reflexivity|exact Hne]. }
  assert (Hkey : approvedKey (idA, recA) = now).
  { unfold approvedKey, orElse. simpl. by rewrite bool_decide_eq_false_2. }
  assert (Hprev : prev db1 idB (flatId rB) = Some (idA, recA)).
  { destruct (prev db1 idB (flatId rB)) as [[hid h]|] eqn:Hhd.
    - destruct (prev_Some _ _ _ _ _ Hhd) as [Hh Hmax].
      specialize (Hmax idA recA Hprior). rewrite Hkey in Hmax.
      destruct (decide (hid = idA)) as [->|Hh'].
      + destruct Hh as (Hl & _). rewrite HA1 in Hl. by injection Hl as <-.
      + assert (Hold : priorApproved db idB (flatId rB) hid h).
        { destruct Hh as (Hl & Hrest). split; [|exact Hrest].
          unfold db1 in Hl. by rewrite approveReading_lookup_ne in Hl. }
        specialize (Hlater hid h Hold Hh'). lia.
    - pose proof (proj1 (prev_None db1 idB (flatId rB)) Hhd) as Hnone.
      by destruct (Hnone idA recA). }
  exists (approvedRecord db1 now' idB cB rB).
  split; [by apply approveReading_lookup|].
  assert (Hfin : finalPreviousReading db1 idB (flatId rB) = cA).
  { unfold finalPreviousReading. by rewrite Hprev. }
  simpl. rewrite Hfin. split; [done|].
  by rewrite clampedUnits_spec_max.
Qed.

(** ** The operations and the status lists *)

(** X8. A status change moves the reading between the lists of the admin
    pages: after an approval it is in the approved list (of all flats and of
    its own flat) and in neither of the other two; after a rejection it is in
    the rejected list only; after reopening it is in the pending list
    only. *)
Theorem status_lists_follow readingId db reading :
  readings db !! readingId = Some reading →
  (∀ now corrected,
     let db' := (approveReading now readingId corrected db).1 in
     (readingId, approvedRecord db now readingId corrected reading)
       ∈ listed (getApprovedReadings None) db' ∧
     (readingId, approvedRecord db now readingId corrected reading)
       ∈ listed (getApprovedReadings (Some (flatId reading))) db' ∧
     ∀ r, ((readingId, r) ∉ listed getPendingReadings db') ∧
          ((readingId, r) ∉ listed (getRejectedReadings None) db')) ∧
  (∀ reason,
     let db' := (rejectReading readingId reason db).1 in
     (∃ r', (readingId, r') ∈ listed (getRejectedReadings None) db' ∧
            rejectionReason r' = reason) ∧
     ∀ r, ((readingId, r) ∉ listed getPendingReadings db') ∧
          ((readingId, r) ∉ listed (getApprovedReadings None) db')) ∧
  (∀ reason,
     let db' := (reopenReading readingId reason db).1 in
     (∃ r', (readingId, r') ∈ listed getPendingReadings db' ∧
            reopenReason r' = reason) ∧
     ∀ r, ((readingId, r) ∉ listed (getApprovedReadings None) db') ∧
          ((readingId, r) ∉ listed (getRejectedReadings None) db')).
Proof.
  intros Hr. split; [|split].
  - intros now corrected db'.
    pose proof (approveReading_lookup now readingId corrected db reading Hr) as Hl.
    fold db' in Hl.
    split; [apply elem_of_getApprovedReadings; by repeat split|].
    split.
    { apply elem_of_getApprovedReadings. split; [exact Hl|]. split; [done|].
      unfold optionalFlat, truthyString. by case_bool_decide. }
    intros r. split.
    + intros [Hl' Hs]%elem_of_getPendingReadings.
      rewrite Hl in Hl'. by injection Hl' as <-.
    + intros (Hl' & Hs & _)%elem_of_getRejectedReadings.
      rewrite Hl in Hl'. by injection Hl' as <-.
  - intros reason db'.
    destruct (rejectReading_lookup readingId reason db reading Hr)
      as (r' & Hl & _ & Hst & Hre & _).
    fold db' in Hl. split.
    + exists r'. split; [|exact Hre].
      apply elem_of_getRejectedReadings. by repeat split.
    + intros r. split.
      * intros [Hl' Hs]%elem_of_getPendingReadings.
        rewrite Hl in Hl'. injection Hl' as <-. congruence.
      * intros (Hl' & Hs & _)%elem_of_getApprovedReadings.
        rewrite Hl in Hl'. injection Hl' as <-. congruence.
  - intros reason db'.
    assert (Hl : ∃ r', readings db' !! readingId = Some r' ∧
                       status r' = Some pending ∧ reopenReason r' = reason).
    { unfold db', reopenReading. rewrite (updateDoc_run _ _ _ _ Hr). simpl.
      eexists. split; [apply lookup_insert_eq|]. simpl. by destruct reason. }
    destruct Hl as (r' & Hl & Hst & Hre). split.
    + exists r'. split; [|exact Hre].
      apply elem_of_getPendingReadings. by split.
    + intros r. split.
      * intros (Hl' & Hs & _)%elem_of_getApprovedReadings.
        rewrite Hl in Hl'. injection Hl' as <-. congruence.
      * intros (Hl' & Hs & _)%elem_of_getRejectedReadings.
        rewrite Hl in Hl'. injection Hl' as <-. congruence.
Qed.

(** ** The settings document *)

Lemma settings_after_merge field v db :
  setSettingsMerge field v db =
    (mkDb (readings db) (flats db)
          (Some (<[field := v]> (nullish (globalTariffDoc db) ∅))), inr ()).
Proof. reflexivity. Qed.

Lemma currentTariff_lookup db :
  currentTariff db =
    match nullish (globalTariffDoc db) ∅ !! "tariffPerUnit" with
    | Some (JNum n) => n
    | _ => Q2Qc 0
    end.
Proof.
  unfold currentTariff, getGlobalTariff, mbind, Firestore_bind, getSettingsDoc.
  simpl. destruct (globalTariffDoc db); simpl; [done|by rewrite lookup_empty].
Qed.

Lemma currentMinimumPrice_lookup db :
  currentMinimumPrice db =
    match nullish (globalTariffDoc db) ∅ !! "minimumPrice" with
    | Some (JNum n) => n
    | _ => Q2Qc 250
    end.
Proof.
  unfold currentMinimumPrice, getMinimumPrice, mbind, Firestore_bind, getSettingsDoc.
  simpl. destruct (globalTariffDoc db); simpl; [done|by rewrite lookup_empty].
Qed.

Lemma currentUnitFactor_lookup db :
  currentUnitFactor db =
    match nullish (globalTariffDoc db) ∅ !! "unitFactor" with
    | Some (JNum n) => n
    | _ => Q2Qc (23 # 10)
    end.
Proof.
  unfold currentUnitFactor, getUnitFactor, mbind, Firestore_bind, getSettingsDoc.
  simpl. destruct (globalTariffDoc db); simpl; [done|by rewrite lookup_empty].
Qed.

(** X9. What an update of a global setting writes is what the getter of
    that setting returns afterwards, whether or not the settings document
    existed; the update itself never fails. *)
Theorem settings_round_trip (v : Qc) db :
  (updateGlobalTariff v db).2 = inr () ∧
  (updateMinimumPrice v db).2 = inr () ∧
  (updateUnitFactor v db).2 = inr () ∧
  getGlobalTariff (updateGlobalTariff v db).1
    = ((updateGlobalTariff v db).1, inr v) ∧
  getMinimumPrice (updateMinimumPrice v db).1
    = ((updateMinimumPrice v db).1, inr v) ∧
  getUnitFactor (updateUnitFactor v db).1
    = ((updateUnitFactor v db).1, inr v).
Proof.
  do 3 (split; [reflexivity|]).
  rewrite getGlobalTariff_run, getMinimumPrice_run, getUnitFactor_run.
  rewrite currentTariff_lookup, currentMinimumPrice_lookup, currentUnitFactor_lookup.
  unfold updateGlobalTariff, updateMinimumPrice, updateUnitFactor.
  rewrite !settings_after_merge. simpl.
  by rewrite !lookup_insert_eq.
Qed.

(** X10. An update of one global setting merges into the settings document:
    the other two settings read as before (as their defaults when the
    document did not exist), updates of different settings commute, and of
    two updates of the same setting the later one stands. *)
Theorem settings_updates_merge (v w : Qc) db :
  currentMinimumPrice (updateGlobalTariff v db).1 = currentMinimumPrice db ∧
  currentUnitFactor (updateGlobalTariff v db).1 = currentUnitFactor db ∧
  currentTariff (updateMinimumPrice v db).1 = currentTariff db ∧
  currentUnitFactor (updateMinimumPrice v db).1 = currentUnitFactor db ∧
  currentTariff (updateUnitFactor v db).1 = currentTariff db ∧
  currentMinimumPrice (updateUnitFactor v db).1 = currentMinimumPrice db ∧
  (updateMinimumPrice w (updateGlobalTariff v db).1).1
    = (updateGlobalTariff v (updateMinimumPrice w db).1).1 ∧
  (updateUnitFactor w (updateGlobalTariff v db).1).1
    = (updateGlobalTariff v (updateUnitFactor w db).1).1 ∧
  (updateUnitFactor w (updateMinimumPrice v db).1).1
    = (updateMinimumPrice v (updateUnitFactor w db).1).1 ∧
  (updateGlobalTariff w (updateGlobalTariff v db).1).1 = (updateGlobalTariff w db).1 ∧
  (updateMinimumPrice w (updateMinimumPrice v db).1).1 = (updateMinimumPrice w db).1 ∧
  (updateUnitFactor w (updateUnitFactor v db).1).1 = (updateUnitFactor w db).1.
Proof.
  rewrite !currentTariff_lookup, !currentMinimumPrice_lookup, !currentUnitFactor_lookup.
  unfold updateGlobalTariff, updateMinimumPrice, updateUnitFactor.
  rewrite !settings_after_merge. simpl.
  do 6 (split; [by rewrite lookup_insert_ne|]).
  do 3 (split; [by rewrite insert_insert_ne|]).
  by rewrite !insert_insert_eq.
Qed.

(** ** The size of the compressed image *)

Lemma Qcdiv_mult_cancel (a w : Qc) : w ≠ Q2Qc 0 → a / w * w = a.
Proof. intros Hw. field. exact Hw. Qed.

Lemma Qc_pos_neq_0 (w : Qc) : Q2Qc 0 < w → w ≠ Q2Qc 0.
Proof. intros Hlt ->. by apply (Qclt_not_le _ _ Hlt), Qcle_refl. Qed.



(** ** The migration scripts *)

Section MigrationProperties.
Context {Doc : Type}.
Implicit Types (db : gmap string (gmap string Doc)) (data : gmap string Doc).
Implicit Types (t : Target Doc) (l : list (string * Doc)).

Lemma foldl_insert_lookup l (m0 : gmap string Doc) k :
  NoDup l.*1 →
  foldl (λ m d, <[d.1 := d.2]> m) m0 l !! k =
    match (list_to_map l : gmap string Doc) !! k with
    | Some v => Some v
    | None => m0 !! k
    end.
Proof.
  revert m0. induction l as [|[i x] l IH]; intros m0 Hnd; simpl; [done|].
  apply NoDup_cons in Hnd as [Hi Hnd]. rewrite IH by done.
  destruct (decide (k = i)) as [->|Hne].
  - rewrite lookup_insert_eq.
    rewrite (not_elem_of_list_to_map_1 l i Hi). by rewrite lookup_insert_eq.
  - rewrite !lookup_insert_ne by done. done.
Qed.

Lemma foldl_insert_union data (m0 : gmap string Doc) :
  foldl (λ m d, <[d.1 := d.2]> m) m0 (map_to_list data) = data ∪ m0.
Proof.
  apply map_eq. intros k.
  rewrite foldl_insert_lookup by apply NoDup_fst_map_to_list.
  rewrite list_to_map_to_list, lookup_union.
  by destruct (data !! k), (m0 !! k).
Qed.

Lemma exportCollection_docs name db : exportCollection name db = collectionDocs db name.
Proof.
  unfold exportCollection. rewrite foldl_insert_union. apply (right_id_L ∅ (∪)).
Qed.

Lemma collectionDocs_adminSet name docId (x : Doc) db name' :
  collectionDocs (adminSet name docId x db) name' =
    if decide (name' = name) then <[docId := x]> (collectionDocs db name)
    else collectionDocs db name'.
Proof.
  unfold adminSet. unfold collectionDocs at 1.
  destruct (decide (name' = name)) as [->|Hne].
  - by rewrite lookup_insert_eq.
  - by rewrite lookup_insert_ne.
Qed.

Lemma collectionDocs_writes name l db name' :
  collectionDocs (foldl (λ d w, adminSet name w.1 w.2 d) db l) name' =
    if decide (name' = name)
    then foldl (λ m w, <[w.1 := w.2]> m) (collectionDocs db name) l
    else collectionDocs db name'.
Proof.
  revert db. induction l as [|[i x] l IH]; intros db; simpl.
  - by destruct (decide (name' = name)) as [->|].
  - rewrite IH, !collectionDocs_adminSet.
    destruct (decide (name' = name)) as [->|Hne]; [|done].
    by rewrite decide_True.
Qed.

Lemma importStep_commits name t n (e : string * Doc) :
  importStep name (t, [], n) e = (batchCommit name [e] t, [], (n + 1)%nat).
Proof.
  unfold importStep. cbn -[Nat.modulo].
  rewrite bool_decide_eq_true_2; [done|apply Nat.mod_1_r].
Qed.

(** The loop commits every document in a batch of its own. *)
Lemma importLoop_fold name l t n :
  foldl (importStep name) (t, [], n) l =
    (mkTarget (foldl (λ d w, adminSet name w.1 w.2 d) (target_db t) l)
              (target_commits t + length l),
     [], (n + length l)%nat).
Proof.
  revert t n. induction l as [|e l IH]; intros t n.
  - simpl. destruct t. simpl. by rewrite !Nat.add_0_r.
  - change (foldl (importStep name) (t, [], n) (e :: l))
      with (foldl (importStep name) (importStep name (t, [], n) e) l).
    rewrite importStep_commits, IH. simpl.
    replace (S (target_commits t + length l))
      with (target_commits t + S (length l))%nat by lia.
    replace (n + 1 + length l)%nat with (n + S (length l))%nat by lia.
    reflexivity.
Qed.

Lemma importCollection_run name data t :
  importLoop name data t =
    (mkTarget (foldl (λ d w, adminSet name w.1 w.2 d) (target_db t) (map_to_list data))
              (target_commits t + size data), [], size data) ∧
  importCollection name data t =
    mkTarget (foldl (λ d w, adminSet name w.1 w.2 d) (target_db t) (map_to_list data))
             (target_commits t + size data
              + if decide (size data `mod` 500 = 0)%nat then 0 else 1).
Proof.
  assert (Hloop : importLoop name data t =
    (mkTarget (foldl (λ d w, adminSet name w.1 w.2 d) (target_db t) (map_to_list data))
              (target_commits t + size data), [], size data)).
  { unfold importLoop. rewrite importLoop_fold. simpl.
    by rewrite length_map_to_list. }
  split; [exact Hloop|].
  unfold importCollection. rewrite Hloop.
  case_bool_decide as Hmod.
  - rewrite decide_False by done. unfold batchCommit. simpl. f_equal. lia.
  - rewrite decide_True by done. f_equal. lia.
Qed.

Lemma importCollection_docs name data t name' :
  collectionDocs (target_db (importCollection name data t)) name' =
    if decide (name' = name) then data ∪ collectionDocs (target_db t) name
    else collectionDocs (target_db t) name'.
Proof.
  destruct (importCollection_run name data t) as [_ ->]. simpl.
  rewrite collectionDocs_writes.
  destruct (decide (name' = name)); [|done].
  apply foldl_insert_union.
Qed.

(** X12. [importCollection] writes every document of the backup into the
    named collection, over a document of the same id and beside the
    documents the backup does not have; other collections are untouched.
    Each document goes out in a commit of its own, so the batch is empty
    when the loop ends, and the commit after the loop (made unless the number
    of documents is a multiple of 500) writes nothing. *)
Theorem importCollection_spec name data t :
  (∀ name',
     collectionDocs (target_db (importCollection name data t)) name' =
       if decide (name' = name) then data ∪ collectionDocs (target_db t) name
       else collectionDocs (target_db t) name') ∧
  (importLoop name data t).1.2 = [] ∧
  target_db (importLoop name data t).1.1 = target_db (importCollection name data t) ∧
  target_commits (importLoop name data t).1.1 = (target_commits t + size data)%nat ∧
  target_commits (importCollection name data t) =
    (target_commits t + size data
     + if decide (size data `mod` 500 = 0)%nat then 0 else 1)%nat.
Proof.
  split; [intros name'; apply importCollection_docs|].
  destruct (importCollection_run name data t) as [-> ->]. by simpl.
Qed.

Lemma importIfPresent_Some name data t name' :
  collectionDocs (target_db (importIfPresent name (Some data) t)) name' =
    if decide (name' = name) then data ∪ collectionDocs (target_db t) name
    else collectionDocs (target_db t) name'.
Proof. simpl. apply importCollection_docs. Qed.

(** X13. Export followed by import: importing the export of a database into
    a target leaves, in each of the collections users, flats, readings and
    settings, the exported documents together with those documents of the
    target whose ids the export does not have; into an empty target this
    reproduces the four collections exactly.  Any other collection of the
    source is not carried over, and importing the same export a second time
    changes no document. *)
Theorem export_import_round_trip db t name :
  let exported := bool_decide (name ∈ ["users"; "flats"; "readings"; "settings"]) in
  collectionDocs (target_db (importAllData (exportAllData db) t)) name =
    (if exported then collectionDocs db name ∪ collectionDocs (target_db t) name
     else collectionDocs (target_db t) name) ∧
  collectionDocs (target_db (importAllData (exportAllData db) (mkTarget ∅ 0))) name =
    (if exported then collectionDocs db name else ∅) ∧
  collectionDocs
    (target_db (importAllData (exportAllData db)
                  (importAllData (exportAllData db) t))) name =
    collectionDocs (target_db (importAllData (exportAllData db) t)) name.
Proof.
  assert (Hgen : ∀ t',
    collectionDocs (target_db (importAllData (exportAllData db) t')) name =
      if bool_decide (name ∈ ["users"; "flats"; "readings"; "settings"])
      then collectionDocs db name ∪ collectionDocs (target_db t') name
      else collectionDocs (target_db t') name).
  { intros t'. unfold importAllData, exportAllData. cbn [backup_users backup_flats
      backup_readings backup_settings].
    rewrite !importIfPresent_Some, !exportCollection_docs.
    destruct (decide (name = "readings")) as [->|Hr]; [done|].
    destruct (decide (name = "flats")) as [->|Hf]; [done|].
    destruct (decide (name = "users")) as [->|Hu]; [done|].
    destruct (decide (name = "settings")) as [->|Hs]; [done|].
    rewrite bool_decide_eq_false_2; [done|].
    rewrite !elem_of_cons, elem_of_nil. tauto. }
  simpl. split; [apply Hgen|]. split.
  - rewrite Hgen. case_bool_decide; [|done].
    unfold collectionDocs at 2. simpl. rewrite lookup_empty.
    apply (right_id_L ∅ (∪)).
  - rewrite !Hgen. case_bool_decide; [|done].
    rewrite (assoc_L (∪)). by rewrite (idemp_L (∪)).
Qed.
End MigrationProperties.

(** ** The monthly summary *)

(** Inequalities between numbers of the language, read as inequalities
    between rationals for [lra]. *)
Ltac qc2q :=
  repeat progress
    (unfold Qcle, Qclt, Qcminus, Qcplus, Qcmult, Qcopp, natQc in *;
     cbn [this Q2Qc] in *;
     rewrite ?Qred_correct in *).

Lemma natQc_S n : natQc (S n) = natQc n + Q2Qc 1.
Proof.
  apply Qc_is_canon. unfold natQc. cbn [this Q2Qc Qcplus]. rewrite !Qred_correct.
  rewrite Nat2Z.inj_succ. unfold Z.succ. rewrite inject_Z_plus. reflexivity.
Qed.

Lemma natQc_nonneg n : Q2Qc 0 ≤ natQc n.
Proof.
  unfold Qcle, natQc. cbn [this Q2Qc]. rewrite !Qred_correct.
  change 0%Q with (inject_Z 0). rewrite <- Zle_Qle. lia.
Qed.

Section SortWith.
Context {A : Type} (cmp : A → A → Z).

Lemma insertWith_Permutation x l : insertWith cmp x l ≡ₚ x :: l.
Proof.
  induction l as [|y ys IH]; simpl; [done|].
  case_bool_decide; [done|]. rewrite IH. apply Permutation_swap.
Qed.

Lemma sortWith_Permutation l : sortWith cmp l ≡ₚ l.
Proof.
  induction l as [|x xs IH]; simpl; [done|].
  by rewrite insertWith_Permutation, IH.
Qed.
End SortWith.

Section Sums.
Context {A : Type} (f : A → Qc).

Lemma sumOf_Permutation l l' : l ≡ₚ l' → sumOf f l = sumOf f l'.
Proof.
  induction 1 as [|x l l' _ IH|x y l|l l' l'' _ IH1 _ IH2]; simpl.
  - done.
  - by rewrite IH.
  - ring.
  - by rewrite IH1.
Qed.

Lemma foldl_sum a l : foldl (λ sum x, sum + f x) a l = a + sumOf f l.
Proof.
  revert a. induction l as [|x l IH]; intros a; simpl.
  - ring.
  - rewrite IH. ring.
Qed.
End Sums.

Lemma sumOf_plus_const {A} (f : A → Qc) (c : Qc) l :
  sumOf (λ x, f x + c) l = sumOf f l + natQc (length l) * c.
Proof.
  induction l as [|x l IH]; simpl.
  - apply Qc_is_canon. reflexivity.
  - rewrite IH, natQc_S. ring.
Qed.

(** X14. The two display paths: the grand total of the reading card and the
    one of the monthly summary are the same number for an approved reading
    that carries its units and its frozen tariff, as every reading written by
    [approveReading] does.  For an approved reading with units but without a
    frozen tariff they differ: the card falls back to a tariff of 70, the
    summary to 0. *)
Theorem grand_totals_agree reading units :
  status reading = Some approved →
  unitsUsed reading = Some units →
  (∀ tariff, tariffAtApproval reading = Some tariff →
     ReadingCard.calculateGrandTotal reading
       = SummaryModal.calculateGrandTotal reading) ∧
  (tariffAtApproval reading = None →
     ReadingCard.calculateGrandTotal reading
       = SummaryModal.calculateGrandTotal reading
         + units * nullish (unitFactorAtApproval reading) (Q2Qc (23 # 10)) * Q2Qc 70).
Proof.
  intros Hst Hu.
  unfold ReadingCard.calculateGrandTotal, SummaryModal.calculateGrandTotal,
    SummaryModal.DEFAULT_UNIT_CONVERSION_KG, SummaryModal.DEFAULT_MINIMUM_CHARGE.
  rewrite bool_decide_eq_false_2 by (intros Hne; by apply Hne).
  rewrite Hu. simpl. split.
  - intros tariff ->. reflexivity.
  - intros ->. simpl. ring.
Qed.

Lemma grand_totals_agree_written db now readingId corrected reading :
  ReadingCard.calculateGrandTotal (approvedRecord db now readingId corrected reading)
    = SummaryModal.calculateGrandTotal
        (approvedRecord db now readingId corrected reading).
Proof. reflexivity. Qed.

(** February's reading of the example data. *)
Lemma grand_totals_agree_witness :
  status Examples.february = Some approved ∧
  unitsUsed Examples.february = Some (Q2Qc 100) ∧
  tariffAtApproval Examples.february = Some (Q2Qc (75 # 10)) ∧
  ReadingCard.calculateGrandTotal Examples.february
    = SummaryModal.calculateGrandTotal Examples.february.
Proof.
  split; [reflexivity|]. split; [reflexivity|]. split; [reflexivity|].
  destruct (grand_totals_agree Examples.february (Q2Qc 100) eq_refl eq_refl)
    as [Hagree _].
  exact (Hagree (Q2Qc (75 # 10)) eq_refl).
Defined.

Section SummaryTotals.
Variable getFullYear : Z → Z.
Variable getMonth : Z → Z.
Variable localeCompare : string → string → Z.

Local Abbreviation monthOf := (SummaryModal.monthYear getFullYear getMonth).
Local Abbreviation rows :=
  (SummaryModal.filteredReadings getFullYear getMonth localeCompare).
Local Abbreviation total :=
  (SummaryModal.totalBillAmount getFullYear getMonth localeCompare).

Lemma filteredReadings_Permutation selectedMonth approvedReadings :
  selectedMonth ≠ "" →
  rows selectedMonth approvedReadings
    ≡ₚ filter (λ reading, monthOf reading.2 = selectedMonth) approvedReadings.
Proof.
  intros Hsel. unfold SummaryModal.filteredReadings.
  rewrite bool_decide_eq_false_2 by done. apply sortWith_Permutation.
Qed.

End SummaryTotals.

(** ** The pages of the summary PDF *)

Lemma furtherPages_ends imgHeight pageHeight :
  Q2Qc 0 < pageHeight →
  ∀ n fuel heightLeft,
    (n ≤ fuel)%nat →
    natQc n * pageHeight ≤ heightLeft + pageHeight →
    heightLeft + pageHeight < natQc (S n) * pageHeight →
    SummaryModal.furtherPages fuel imgHeight pageHeight heightLeft =
      Some (map (λ i, heightLeft - natQc i * pageHeight - imgHeight + Q2Qc 10)
              (seq 0 n)).
Proof.
  intros HP. induction n as [|n IH]; intros fuel heightLeft Hfuel Hlo Hhi.
  - assert (Hneg : ¬ Q2Qc 0 ≤ heightLeft).
    { rewrite natQc_S in Hhi. apply Qclt_not_le.
      change (natQc 0) with (Q2Qc 0) in Hhi. qc2q. lra. }
    destruct fuel; simpl; by rewrite bool_decide_eq_false_2.
  - destruct fuel as [|fuel]; [lia|].
    pose proof (natQc_nonneg n) as Hn.
    assert (Hpos : Q2Qc 0 ≤ heightLeft).
    { rewrite natQc_S in Hlo.
      assert (Hm : Q2Qc 0 ≤ natQc n * pageHeight)
        by (apply Qcmult_nonneg_nonneg; [done|by apply Qclt_le_weak]).
      replace ((natQc n + Q2Qc 1) * pageHeight)
        with (natQc n * pageHeight + pageHeight) in Hlo by ring.
      revert Hlo Hm. generalize (natQc n * pageHeight). intros m Hlo Hm.
      clear Hhi Hn IH. qc2q. lra. }
    simpl. rewrite bool_decide_eq_true_2 by done.
    rewrite (IH fuel (heightLeft - pageHeight)).
    + f_equal. f_equal.
      * change (natQc 0) with (Q2Qc 0). ring.
      * rewrite <- seq_shift, map_map. apply map_ext. intros i.
        rewrite natQc_S. ring.
    + lia.
    + replace (heightLeft - pageHeight + pageHeight) with heightLeft by ring.
      rewrite natQc_S in Hlo.
      replace ((natQc n + Q2Qc 1) * pageHeight)
        with (natQc n * pageHeight + pageHeight) in Hlo by ring.
      revert Hlo. generalize (natQc n * pageHeight). intros m Hlo.
      clear Hhi Hn IH Hpos. qc2q. lra.
    + rewrite !natQc_S in Hhi. rewrite natQc_S.
      replace (heightLeft - pageHeight + pageHeight) with heightLeft by ring.
      revert Hhi. generalize (natQc n). intros k Hhi.
      replace ((k + Q2Qc 1 + Q2Qc 1) * pageHeight)
        with ((k + Q2Qc 1) * pageHeight + pageHeight) in Hhi by ring.
      revert Hhi. generalize ((k + Q2Qc 1) * pageHeight). intros km Hhi.
      clear Hlo Hn IH Hpos. qc2q. lra.
Qed.

Lemma furtherPages_out_of_fuel imgHeight pageHeight :
  Q2Qc 0 < pageHeight →
  ∀ fuel n heightLeft,
    (fuel < n)%nat →
    natQc n * pageHeight ≤ heightLeft + pageHeight →
    SummaryModal.furtherPages fuel imgHeight pageHeight heightLeft = None.
Proof.
  intros HP. induction fuel as [|fuel IH]; intros n heightLeft Hfuel Hlo.
  - destruct n as [|n]; [lia|].
    assert (Hpos : Q2Qc 0 ≤ heightLeft).
    { rewrite natQc_S in Hlo. pose proof (natQc_nonneg n) as Hn.
      assert (Hm : Q2Qc 0 ≤ natQc n * pageHeight)
        by (apply Qcmult_nonneg_nonneg; [done|by apply Qclt_le_weak]).
      replace ((natQc n + Q2Qc 1) * pageHeight)
        with (natQc n * pageHeight + pageHeight) in Hlo by ring.
      revert Hlo Hm. generalize (natQc n * pageHeight). intros m Hlo Hm.
      clear Hn. qc2q. lra. }
    simpl. by rewrite bool_decide_eq_true_2.
  - destruct n as [|n]; [lia|].
    pose proof (natQc_nonneg n) as Hn.
    assert (Hm : Q2Qc 0 ≤ natQc n * pageHeight)
      by (apply Qcmult_nonneg_nonneg; [done|by apply Qclt_le_weak]).
    rewrite natQc_S in Hlo.
    replace ((natQc n + Q2Qc 1) * pageHeight)
      with (natQc n * pageHeight + pageHeight) in Hlo by ring.
    assert (Hpos : Q2Qc 0 ≤ heightLeft).
    { revert Hlo Hm. generalize (natQc n * pageHeight). intros m Hlo Hm.
      clear Hn IH. qc2q. lra. }
    simpl. rewrite bool_decide_eq_true_2 by done.
    rewrite (IH n (heightLeft - pageHeight)); [done|lia|].
    replace (heightLeft - pageHeight + pageHeight) with heightLeft by ring.
    revert Hlo. generalize (natQc n * pageHeight). intros m Hlo.
    clear Hn IH Hm Hpos. qc2q. lra.
Qed.

Lemma furtherPages_never_ends imgHeight pageHeight :
  pageHeight ≤ Q2Qc 0 →
  ∀ fuel heightLeft,
    Q2Qc 0 ≤ heightLeft →
    SummaryModal.furtherPages fuel imgHeight pageHeight heightLeft = None.
Proof.
  intros HP. induction fuel as [|fuel IH]; intros heightLeft Hpos; simpl.
  - by rewrite bool_decide_eq_true_2.
  - rewrite bool_decide_eq_true_2 by done.
    rewrite IH; [done|]. clear IH. qc2q. lra.
Qed.


(** ** The month selector *)

Section SortWithSorted.
Context {A : Type} (cmp : A → A → Z).
Hypothesis cmp_total : ∀ a b, (cmp a b ≤ 0)%Z ∨ (cmp b a ≤ 0)%Z.
Hypothesis cmp_trans : ∀ a b c, (cmp a b ≤ 0)%Z → (cmp b c ≤ 0)%Z → (cmp a c ≤ 0)%Z.

Lemma insertWith_sorted x l :
  StronglySorted (λ a b, (cmp a b ≤ 0)%Z) l →
  StronglySorted (λ a b, (cmp a b ≤ 0)%Z) (insertWith cmp x l).
Proof.
  induction l as [|y ys IH]; simpl; intros Hs.
  - repeat constructor.
  - apply StronglySorted_inv in Hs as [Hys Hy].
    case_bool_decide as Hle.
    + constructor; [by constructor|].
      constructor; [exact Hle|].
      eapply Forall_impl; [exact Hy|]. simpl. intros z Hz. by eapply cmp_trans.
    + constructor; [by apply IH|].
      rewrite insertWith_Permutation. constructor; [|exact Hy].
      by destruct (cmp_total x y).
Qed.

Lemma sortWith_sorted l : StronglySorted (λ a b, (cmp a b ≤ 0)%Z) (sortWith cmp l).
Proof.
  induction l as [|x xs IH]; simpl; [constructor|].
  by apply insertWith_sorted.
Qed.
End SortWithSorted.

Lemma compareStrings_le a b :
  (compareStrings a b ≤ 0)%Z ↔ a = b ∨ String_as_OT.lt a b.
Proof.
  unfold compareStrings.
  destruct (String_as_OT.compare_spec a b) as [Heq|Hlt|Hgt].
  - split; [by left|lia].
  - split; [by right|lia].
  - split; [lia|]. intros [->|Hlt].
    + by destruct (irreflexivity String_as_OT.lt b).
    + destruct (irreflexivity String_as_OT.lt a). by etrans.
Qed.

Lemma compareStrings_total a b :
  (compareStrings a b ≤ 0)%Z ∨ (compareStrings b a ≤ 0)%Z.
Proof.
  rewrite !compareStrings_le.
  destruct (String_as_OT.compare_spec a b) as [Heq|Hlt|Hgt]; auto.
Qed.

Lemma compareStrings_trans a b c :
  (compareStrings a b ≤ 0)%Z → (compareStrings b c ≤ 0)%Z →
  (compareStrings a c ≤ 0)%Z.
Proof.
  rewrite !compareStrings_le. intros [->|H1] [->|H2]; auto.
  right. by etrans.
Qed.

Lemma NoDup_setAdd x set : NoDup set → NoDup (setAdd x set).
Proof.
  intros Hnd. unfold setAdd. case_bool_decide as Hin; [done|].
  apply NoDup_app. split; [done|]. split; [|apply NoDup_singleton].
  intros y Hy ->%list_elem_of_singleton. done.
Qed.

Lemma elem_of_setAdd y x set : y ∈ setAdd x set ↔ y = x ∨ y ∈ set.
Proof.
  unfold setAdd. case_bool_decide as Hin.
  - split; [by right|]. by intros [->|].
  - rewrite elem_of_app, list_elem_of_singleton. tauto.
Qed.

Section Months.
Variable getFullYear : Z → Z.
Variable getMonth : Z → Z.

Local Abbreviation monthOf := (SummaryModal.monthYear getFullYear getMonth).
Local Abbreviation months := (MonthSelector.availableMonths getFullYear getMonth).

Lemma monthSet_fold (l : list (string * Reading)) set0 :
  NoDup set0 →
  NoDup (foldl (λ set reading,
                  if bool_decide (monthOf reading.2 ≠ "")
                  then setAdd (monthOf reading.2) set else set) set0 l) ∧
  ∀ m, m ∈ foldl (λ set reading,
                    if bool_decide (monthOf reading.2 ≠ "")
                    then setAdd (monthOf reading.2) set else set) set0 l
       ↔ m ∈ set0 ∨ (m ≠ "" ∧ ∃ d, d ∈ l ∧ monthOf d.2 = m).
Proof.
  revert set0. induction l as [|d l IH]; intros set0 Hnd; simpl.
  - split; [done|]. intros m. split; [by left|].
    intros [?|(_ & d & Hd%elem_of_nil & _)]; done.
  - case_bool_decide as Hm.
    + destruct (IH (setAdd (monthOf d.2) set0) (NoDup_setAdd _ _ Hnd)) as [Hnd' Hin].
      split; [done|]. intros m. rewrite Hin, elem_of_setAdd. split.
      * intros [[->|?]|(Hne & d' & Hd' & Heq)]; [right|by left|right].
        -- split; [done|]. exists d. split; [by left|done].
        -- split; [done|]. exists d'. split; [by right|done].
      * intros [?|(Hne & d' & [->|Hd']%elem_of_cons & Heq)]; [by left; right|..].
        -- left. by left.
        -- right. split; [done|]. by exists d'.
    + destruct (IH set0 Hnd) as [Hnd' Hin].
      split; [done|]. intros m. rewrite Hin. split.
      * intros [?|(Hne & d' & Hd' & Heq)]; [by left|right].
        split; [done|]. exists d'. split; [by right|done].
      * intros [?|(Hne & d' & [->|Hd']%elem_of_cons & Heq)]; [by left|..].
        -- congruence.
        -- right. split; [done|]. by exists d'.
Qed.

(** X17. The month selector offers exactly the months that have an approved
    reading (by the stored month of the reading, else by the month of its
    approval), every month once, the latest first.  When no month is selected
    yet, the current month is selected if it is offered, and the latest month
    otherwise; a month that is already selected is kept. *)
Theorem availableMonths_sound approvedReadings selectedMonth currentMonth :
  (∀ m, m ∈ months approvedReadings
        ↔ m ≠ "" ∧ ∃ d, d ∈ approvedReadings ∧ monthOf d.2 = m) ∧
  NoDup (months approvedReadings) ∧
  StronglySorted (λ a b, String_as_OT.lt b a) (months approvedReadings) ∧
  (selectedMonth ≠ "" →
   MonthSelector.defaultMonth selectedMonth currentMonth (months approvedReadings)
     = selectedMonth) ∧
  (months approvedReadings ≠ [] →
   MonthSelector.defaultMonth "" currentMonth (months approvedReadings)
     ∈ months approvedReadings ∧
   (currentMonth ∈ months approvedReadings →
    MonthSelector.defaultMonth "" currentMonth (months approvedReadings)
      = currentMonth) ∧
   (currentMonth ∉ months approvedReadings →
    ∀ m, m ∈ months approvedReadings →
         m = MonthSelector.defaultMonth "" currentMonth (months approvedReadings) ∨
         String_as_OT.lt m
           (MonthSelector.defaultMonth "" currentMonth (months approvedReadings)))).
Proof.
  destruct (monthSet_fold approvedReadings [] (NoDup_nil_2)) as [Hnd Hin].
  fold (MonthSelector.monthSet getFullYear getMonth approvedReadings) in Hnd, Hin.
  assert (Hmem : ∀ m, m ∈ months approvedReadings
        ↔ m ≠ "" ∧ ∃ d, d ∈ approvedReadings ∧ monthOf d.2 = m).
  { intros m. unfold MonthSelector.availableMonths.
    rewrite elem_of_reverse, sortWith_Permutation, Hin.
    split; [intros [Hm%elem_of_nil|?]; done|by right]. }
  assert (Hnd' : NoDup (months approvedReadings)).
  { unfold MonthSelector.availableMonths.
    by rewrite reverse_Permutation, sortWith_Permutation. }
  assert (Hsorted : StronglySorted (λ a b, String_as_OT.lt b a)
                      (months approvedReadings)).
  { pose proof (sortWith_sorted compareStrings compareStrings_total
                  compareStrings_trans
                  (MonthSelector.monthSet getFullYear getMonth approvedReadings)) as Hs.
    assert (Hstrict : StronglySorted String_as_OT.lt
              (sortWith compareStrings
                 (MonthSelector.monthSet getFullYear getMonth approvedReadings))).
    { assert (Hnds : NoDup (sortWith compareStrings
                 (MonthSelector.monthSet getFullYear getMonth approvedReadings)))
        by by rewrite sortWith_Permutation.
      revert Hs Hnds.
      generalize (sortWith compareStrings
                    (MonthSelector.monthSet getFullYear getMonth approvedReadings)).
      intros l Hs. induction Hs as [|x l Hl IH Hx]; intros Hndl; [constructor|].
      apply NoDup_cons in Hndl as [Hxl Hndl].
      constructor; [by apply IH|].
      apply Forall_forall. intros y Hy.
      rewrite Forall_forall in Hx. specialize (Hx y Hy).
      apply compareStrings_le in Hx as [->|Hlt]; done. }
    unfold MonthSelector.availableMonths.
    apply Sorted_StronglySorted.
    { intros a b c Hab Hbc. unfold flip in *. by etrans. }
    apply (Sorted_reverse String_as_OT.lt).
    by apply StronglySorted_Sorted. }
  split; [exact Hmem|]. split; [exact Hnd'|]. split; [exact Hsorted|].
  split.
  { intros Hsel. unfold MonthSelector.defaultMonth.
    destruct (months approvedReadings); [done|].
    by rewrite bool_decide_eq_false_2. }
  intros Hne. unfold MonthSelector.defaultMonth.
  destruct (months approvedReadings) as [|first rest] eqn:Hm; [done|].
  rewrite bool_decide_eq_true_2 by done.
  case_bool_decide as Hcur.
  - split; [done|]. split; [done|]. intros Hnot. done.
  - split; [by left|]. split; [done|].
    intros _ m [->|Hrest]%elem_of_cons; [by left|right].
    apply StronglySorted_inv in Hsorted as [_ Hfirst].
    rewrite Forall_forall in Hfirst. by apply Hfirst.
Qed.
End Months.

(** ** The upload form *)

Section UploadForm.
Context {File : Type}.
Variable trim : string → string.
Variable Number : string → option Qc.
Variable uploadMeterImage : File → Error + string.
Variable sdkMessage : string.
Variable getFullYear : Z → Z.
Variable getMonth : Z → Z.
Variable toLocaleDateString : Z → string.

Local Abbreviation submit :=
  (MeterUploadForm.handleSubmit trim Number uploadMeterImage sdkMessage
     getFullYear getMonth toLocaleDateString).
Local Abbreviation conflict := (conflicting getFullYear getMonth).
Local Abbreviation thisMonth := (getYearMonth getFullYear getMonth).

(** X18. What submitting the upload form does.  Without a chosen file, with
    a blank reading or with a reading that is not a number, only the error
    text changes and nothing is written.  Otherwise the form ends with
    [uploading] off: a failure to read the picture and a refusal by the
    monthly limit put the message of the error on the form, keep the file and
    the typed reading, and write nothing; a success stores a pending reading
    with the picture and the parsed reading, shows the success text and
    clears the file and the typed reading. *)
Theorem handleSubmit_outcomes now newId flat (st : MeterUploadForm.State) db :
  (MeterUploadForm.file st = None →
   submit now newId flat st db =
     (MeterUploadForm.mkState None (MeterUploadForm.tenantReading st)
        (MeterUploadForm.uploading st) (MeterUploadForm.message st)
        (Some "Please choose a meter photo."), db)) ∧
  (∀ chosen,
     MeterUploadForm.file st = Some chosen →
     (trim (MeterUploadForm.tenantReading st) = "" →
      submit now newId flat st db =
        (MeterUploadForm.mkState (Some chosen) (MeterUploadForm.tenantReading st)
           (MeterUploadForm.uploading st) (MeterUploadForm.message st)
           (Some "Please enter the meter reading value."), db)) ∧
     (trim (MeterUploadForm.tenantReading st) ≠ "" →
      Number (trim (MeterUploadForm.tenantReading st)) = None →
      submit now newId flat st db =
        (MeterUploadForm.mkState (Some chosen) (MeterUploadForm.tenantReading st)
           (MeterUploadForm.uploading st) (MeterUploadForm.message st)
           (Some "Please enter a valid meter reading number."), db)) ∧
     (∀ parsed,
        trim (MeterUploadForm.tenantReading st) ≠ "" →
        Number (trim (MeterUploadForm.tenantReading st)) = Some parsed →
        (∀ err,
           uploadMeterImage chosen = inl err →
           submit now newId flat st db =
             (MeterUploadForm.mkState (Some chosen) (MeterUploadForm.tenantReading st)
                false None (Some (MeterUploadForm.messageOf sdkMessage err)), db)) ∧
        (∀ imageUrl,
           uploadMeterImage chosen = inr imageUrl →
           ((∃ id r, conflict db flat (thisMonth now) id r) →
            ∃ lid latest,
              conflict db flat (thisMonth now) lid latest ∧
              submit now newId flat st db =
                (MeterUploadForm.mkState (Some chosen)
                   (MeterUploadForm.tenantReading st) false None
                   (Some (uploadLimitMessage
                            (toLocaleDateString <$> truthy (createdAt latest)))),
                 db)) ∧
           ((∀ id r, ¬ conflict db flat (thisMonth now) id r) →
            submit now newId flat st db =
              (MeterUploadForm.mkState None "" false
                 (Some "Image uploaded successfully. Your reading will be reviewed by an admin.")
                 None,
               mkDb (<[newId := submittedRecord getFullYear getMonth now flat
                                  imageUrl (Some parsed)]> (readings db))
                    (flats db) (globalTariffDoc db)))))).
Proof.
  split.
  { intros Hf. unfold MeterUploadForm.handleSubmit. by rewrite Hf. }
  intros chosen Hf. split; [|split].
  - intros Hblank. unfold MeterUploadForm.handleSubmit.
    rewrite Hf, Hblank. by rewrite bool_decide_eq_true_2.
  - intros Hne Hnan. unfold MeterUploadForm.handleSubmit.
    rewrite Hf, Hnan. by rewrite bool_decide_eq_false_2.
  - intros parsed Hne Hnum. split.
    + intros err Himg. unfold MeterUploadForm.handleSubmit.
      rewrite Hf, Hnum, Himg. rewrite bool_decide_eq_false_2 by done.
      reflexivity.
    + intros imageUrl Himg. split.
      * intros (id & r & Hc).
        destruct (createReadingFromImage_blocked getFullYear getMonth
                    toLocaleDateString now newId flat imageUrl (Some parsed)
                    db id r Hc) as (lid & latest & Hl & _ & Hrun).
        exists lid, latest. split; [exact Hl|].
        unfold MeterUploadForm.handleSubmit.
        rewrite Hf, Hnum, Himg, Hrun. rewrite bool_decide_eq_false_2 by done.
        reflexivity.
      * intros Hfree.
        unfold MeterUploadForm.handleSubmit.
        rewrite Hf, Hnum, Himg.
        rewrite (createReadingFromImage_free getFullYear getMonth toLocaleDateString
                   now newId flat imageUrl (Some parsed) db Hfree).
        rewrite bool_decide_eq_false_2 by done. reflexivity.
Qed.
End UploadForm.

(** ** The further properties on the example data *)

Lemma billingDb_march_conflict :
  conflicting UtcHost.getFullYear UtcHost.getMonth Examples.billingDb "A-101"
    (getYearMonth UtcHost.getFullYear UtcHost.getMonth 1741996800000)
    "mar" Examples.march.
Proof.
  split; [reflexivity|]. split; [reflexivity|].
  split; [vm_compute; reflexivity|]. intros Heq. discriminate Heq.
Qed.

Lemma billingDb_april_free id r :
  ¬ conflicting UtcHost.getFullYear UtcHost.getMonth Examples.billingDb "A-101"
      (getYearMonth UtcHost.getFullYear UtcHost.getMonth 1744675200000) id r.
Proof.
  intros (Hl & _ & Hb & _).
  apply billingDb_lookup in Hl as [[-> ->]|[-> ->]];
    vm_compute in Hb; discriminate Hb.
Qed.

Lemma billingDb_oneActivePerMonth :
  oneActivePerMonth UtcHost.getFullYear UtcHost.getMonth Examples.billingDb.
Proof.
  intros fid ym id1 r1 id2 r2 (Hl1 & _ & Hb1 & _) (Hl2 & _ & Hb2 & _).
  apply billingDb_lookup in Hl1 as [[-> ->]|[-> ->]];
    apply billingDb_lookup in Hl2 as [[-> ->]|[-> ->]];
    try reflexivity; subst ym; vm_compute in Hb2; discriminate Hb2.
Qed.

Lemma billingDb_priorApproved pid p :
  priorApproved Examples.billingDb "mar" "A-101" pid p → pid = "feb".
Proof.
  intros (Hl & _ & _ & Hne).
  apply billingDb_lookup in Hl as [[-> ->]|[-> ->]]; [reflexivity|].
  by destruct Hne.
Qed.

(** The approved readings of flat A-101 of the example database. *)
Lemma optional_flat_filter_witness :
  "A-101" ≠ "" ∧
  listed (getApprovedReadings (Some "A-101")) Examples.billingDb
    = filter (λ d, flatId d.2 = "A-101")
        (listed (getApprovedReadings None) Examples.billingDb).
Proof.
  assert (H : "A-101" ≠ "") by (intros Heq; discriminate Heq).
  split; [exact H|].
  destruct (optional_flat_filter "A-101") as (_ & _ & Hf).
  exact (proj1 (Hf H Examples.billingDb)).
Defined.

(** Rejecting March's reading leaves February's reading as it was. *)
Lemma operations_write_one_document_witness :
  "feb" ≠ target (OpReject "mar" None) ∧
  readings (runOp UtcHost.getFullYear UtcHost.getMonth UtcHost.toLocaleDateString
              (OpReject "mar" None) Examples.billingDb).1 !! "feb"
    = readings Examples.billingDb !! "feb".
Proof.
  assert (H : "feb" ≠ target (OpReject "mar" None)) by (intros Heq; discriminate Heq).
  split; [exact H|].
  destruct (operations_write_one_document UtcHost.getFullYear UtcHost.getMonth
              UtcHost.toLocaleDateString (OpReject "mar" None) Examples.billingDb)
    as (Hframe & _).
  exact (Hframe "feb" H).
Defined.

(** On 15 March 2025 a second upload for flat A-101 is refused; once the
    upload of 14 March is rejected it goes through. *)
Lemma reject_then_upload_witness :
  oneActivePerMonth UtcHost.getFullYear UtcHost.getMonth Examples.billingDb ∧
  (createReadingFromImage UtcHost.getFullYear UtcHost.getMonth
     UtcHost.toLocaleDateString 1741996800000 "new" "A-101" "img" None
     (rejectReading "mar" (Some "blurred") Examples.billingDb).1).2 = inr ().
Proof.
  split; [exact billingDb_oneActivePerMonth|].
  destruct (reject_then_upload UtcHost.getFullYear UtcHost.getMonth
              UtcHost.toLocaleDateString 1741996800000 "new" "A-101" "img" None
              "mar" (Some "blurred") Examples.billingDb Examples.march
              billingDb_oneActivePerMonth billingDb_march_conflict)
    as (_ & Hok & _).
  exact Hok.
Defined.

(** An upload on 15 April 2025 goes through, one on 16 April is refused. *)
Lemma second_upload_refused_witness :
  getYearMonth UtcHost.getFullYear UtcHost.getMonth 1744761600000
    = getYearMonth UtcHost.getFullYear UtcHost.getMonth 1744675200000 ∧
  (createReadingFromImage UtcHost.getFullYear UtcHost.getMonth
     UtcHost.toLocaleDateString 1744761600000 "second" "A-101" "img2" None
     (createReadingFromImage UtcHost.getFullYear UtcHost.getMonth
        UtcHost.toLocaleDateString 1744675200000 "first" "A-101" "img" None
        Examples.billingDb).1).2
    = inl (JsError (uploadLimitMessage
                      (UtcHost.toLocaleDateString <$> truthy (Some 1744675200000%Z)))).
Proof.
  assert (Hsame : getYearMonth UtcHost.getFullYear UtcHost.getMonth 1744761600000
                  = getYearMonth UtcHost.getFullYear UtcHost.getMonth 1744675200000)
    by (vm_compute; reflexivity).
  split; [exact Hsame|].
  destruct (second_upload_refused UtcHost.getFullYear UtcHost.getMonth
              UtcHost.toLocaleDateString 1744675200000 1744761600000
              "first" "second" "A-101" "img" "img2" None None Examples.billingDb
              billingDb_april_free Hsame) as (_ & Hsecond).
  exact (f_equal snd Hsecond).
Defined.

(** March's reading approved at 140 and then at 150 is as if approved at 150
    only. *)
Lemma last_approval_wins_witness :
  distinctApprovalTimes Examples.billingDb "mar" "A-101" ∧
  approveReading 1742083200000 "mar" (Q2Qc 150)
    (approveReading 1742000000000 "mar" (Q2Qc 140) Examples.billingDb).1
  = approveReading 1742083200000 "mar" (Q2Qc 150) Examples.billingDb.
Proof.
  assert (H : distinctApprovalTimes Examples.billingDb "mar" "A-101").
  { intros pid p qid q Hp Hq _.
    apply billingDb_priorApproved in Hp, Hq. congruence. }
  split; [exact H|].
  exact (last_approval_wins 1742000000000 1742083200000 "mar" (Q2Qc 140) (Q2Qc 150)
           Examples.billingDb Examples.march eq_refl H).
Defined.

(** February's reading approved again at 120, then March's at 150: March is
    billed 30 units from 120. *)
Lemma next_approval_continues_witness :
  "feb" ≠ "mar" ∧
  ∃ r',
    readings (approveReading 1742083200000 "mar" (Q2Qc 150)
                (approveReading 1742000000000 "feb" (Q2Qc 120)
                   Examples.billingDb).1).1 !! "mar" = Some r' ∧
    previousReading r' = Some (Q2Qc 120) ∧
    unitsUsed r' = Some (spec_max (Q2Qc 150 - Q2Qc 120) (Q2Qc 0)).
Proof.
  assert (Hne : "feb" ≠ "mar") by (intros Heq; discriminate Heq).
  assert (Hnow : 1742000000000%Z ≠ 0%Z) by (intros Heq; discriminate Heq).
  split; [exact Hne|].
  apply (next_approval_continues 1742000000000 1742083200000 "feb" "mar"
           (Q2Qc 120) (Q2Qc 150) Examples.billingDb Examples.february Examples.march
           eq_refl eq_refl Hne eq_refl Hnow).
  intros pid p Hp Hpid. apply billingDb_priorApproved in Hp. by destruct Hpid.
Defined.

(** March's reading after its approval is in the approved list and in no
    other. *)
Lemma status_lists_follow_witness :
  readings Examples.billingDb !! "mar" = Some Examples.march ∧
  ("mar", approvedRecord Examples.billingDb 1742000000000 "mar" (Q2Qc 150)
            Examples.march)
    ∈ listed (getApprovedReadings None)
        (approveReading 1742000000000 "mar" (Q2Qc 150) Examples.billingDb).1.
Proof.
  split; [reflexivity|].
  destruct (status_lists_follow "mar" Examples.billingDb Examples.march eq_refl)
    as (Happ & _).
  exact (proj1 (Happ 1742000000000%Z (Q2Qc 150))).
Defined.



(** With February's reading approved and no month selected, a month of the
    list is selected. *)
Lemma availableMonths_sound_witness :
  MonthSelector.availableMonths UtcHost.getFullYear UtcHost.getMonth
    [("feb", Examples.february)] ≠ [] ∧
  MonthSelector.defaultMonth "" "2025-03"
    (MonthSelector.availableMonths UtcHost.getFullYear UtcHost.getMonth
       [("feb", Examples.february)])
  ∈ MonthSelector.availableMonths UtcHost.getFullYear UtcHost.getMonth
      [("feb", Examples.february)].
Proof.
  assert (H : MonthSelector.availableMonths UtcHost.getFullYear UtcHost.getMonth
                [("feb", Examples.february)] ≠ [])
    by (vm_compute; intros Heq; discriminate Heq).
  split; [exact H|].
  destruct (availableMonths_sound UtcHost.getFullYear UtcHost.getMonth
              [("feb", Examples.february)] "" "2025-03") as (_ & _ & _ & _ & Hdef).
  exact (proj1 (Hdef H)).
Defined.

(** A tenant of flat A-101 submits a photo and the reading 150 on 15 April
    2025: the reading is stored and the form is cleared. *)
Lemma handleSubmit_outcomes_witness :
  (∀ id r,
     ¬ conflicting UtcHost.getFullYear UtcHost.getMonth Examples.billingDb "A-101"
         (getYearMonth UtcHost.getFullYear UtcHost.getMonth 1744675200000) id r) ∧
  MeterUploadForm.handleSubmit (λ s, s) (λ _, Some (Q2Qc 150)) (λ _ : unit, inr "img")
    "" UtcHost.getFullYear UtcHost.getMonth UtcHost.toLocaleDateString
    1744675200000 "new" "A-101"
    (MeterUploadForm.mkState (Some ()) "150" false None None) Examples.billingDb
  = (MeterUploadForm.mkState None "" false
       (Some "Image uploaded successfully. Your reading will be reviewed by an admin.")
       None,
     mkDb (<["new" := submittedRecord UtcHost.getFullYear UtcHost.getMonth
                        1744675200000 "A-101" "img" (Some (Q2Qc 150))]>
             (readings Examples.billingDb))
          (flats Examples.billingDb) (globalTariffDoc Examples.billingDb)).
Proof.
  split; [exact billingDb_april_free|].
  destruct (handleSubmit_outcomes (λ s, s) (λ _, Some (Q2Qc 150))
              (λ _ : unit, inr "img") "" UtcHost.getFullYear UtcHost.getMonth
              UtcHost.toLocaleDateString 1744675200000 "new" "A-101"
              (MeterUploadForm.mkState (Some ()) "150" false None None)
              Examples.billingDb) as (_ & Hfile).
  destruct (Hfile () eq_refl) as (_ & _ & Hparsed).
  assert (Hne : "150" ≠ "") by (intros Heq; discriminate Heq).
  destruct (Hparsed (Q2Qc 150) Hne eq_refl) as (_ & Hupload).
  destruct (Hupload "img" eq_refl) as (_ & Hfree).
  exact (Hfree billingDb_april_free).
Defined.
